(** * githubql_exporter: the organization collector

    A shallow embedding of [collector/organization.go] (the collector with
    pull requests, pushed, stargazers, watchers and the rate-limit gauges)
    and the properties of its [Describe] and [Collect] methods.

    Layout:
    - [time]: the part of Go's [time.Time] that [Unix()] reads;
    - [prometheus]: descriptors, constant metrics and their construction
      checks, as far as the collector uses them;
    - [Section Collector]: the collector itself, over an arbitrary remote
      GraphQL endpoint, with channels, the logger and the remote threaded
      through a small state-and-panic monad;
    - lemmas about one repository, one organization, the whole loop;
    - the theorems, one per stated property. *)

From Stdlib Require Import ZArith List String Ascii Bool Lia.
From Stdlib Require Import Floats.SpecFloat.
Import ListNotations.

Local Open Scope string_scope.
Local Open Scope list_scope.
Local Open Scope Z_scope.

Set Implicit Arguments.

(** ** Machine integers and floats *)

(** Two's-complement wrap-around of a 64-bit signed Go [int64]. *)
Definition int64 (z : Z) : Z :=
  (z + 2 ^ 63) mod 2 ^ 64 - 2 ^ 63.

(** Two's-complement wrap-around of a 32-bit signed Go [int32], the type
    under [githubql.Int]. *)
Definition int32 (z : Z) : Z :=
  (z + 2 ^ 31) mod 2 ^ 32 - 2 ^ 31.

(** Wrap-around of a 64-bit unsigned Go [uint64]. *)
Definition uint64 (z : Z) : Z := z mod 2 ^ 64.

(** Go's conversion [float64(x)] of an integer: the IEEE-754 binary64 number
    nearest to [x], ties to even. *)
Definition float64 (x : Z) : spec_float :=
  binary_normalize 53 1024 x 0 false.

(** The integer a finite binary64 number stands for, when it is one. *)
Definition float64_int (f : spec_float) : option Z :=
  match f with
  | S754_zero _ => Some 0
  | S754_finite s m e =>
      if 0 <=? e
      then Some ((if s then Z.neg m else Z.pos m) * 2 ^ e)
      else if Z.pos m mod 2 ^ (- e) =? 0
           then Some ((if s then Z.neg m else Z.pos m) / 2 ^ (- e))
           else None
  | _ => None
  end.

(** ** Go's [time.Time], as read by [Unix] *)
Module time.

(** [wall] is a [uint64], [ext] an [int64]; the location pointer plays no
    part in [Unix] and is left out. *)
Record Time : Set := { wall : Z; ext : Z }.

(** The zero value of the struct: January 1, year 1, 00:00:00 UTC. *)
Definition zero : Time := {| wall := 0; ext := 0 |}.

Definition hasMonotonic : Z := Z.shiftl 1 63.
Definition nsecShift : Z := 30.
Definition secondsPerDay : Z := 86400.
Definition unixToInternal : Z :=
  (1969 * 365 + 1969 / 4 - 1969 / 100 + 1969 / 400) * secondsPerDay.
Definition internalToUnix : Z := - unixToInternal.
Definition wallToInternal : Z :=
  (1884 * 365 + 1884 / 4 - 1884 / 100 + 1884 / 400) * secondsPerDay.

(** Seconds since January 1, year 1. *)
Definition sec (t : Time) : Z :=
  if Z.land (wall t) hasMonotonic =? 0
  then ext t
  else int64 (wallToInternal
              + Z.shiftr (uint64 (Z.shiftl (wall t) 1)) (nsecShift + 1)).

Definition unixSec (t : Time) : Z := int64 (sec t + internalToUnix).

(** [t.Unix()]: seconds elapsed since January 1, 1970 UTC. *)
Definition Unix (t : Time) : Z := unixSec t.

End time.

(** ** The Prometheus client: descriptors and constant metrics *)
Module prometheus.

Definition is_alpha (c : ascii) : bool :=
  let n := nat_of_ascii c in
  ((65 <=? n) && (n <=? 90) || (97 <=? n) && (n <=? 122))%nat.

Definition is_digit (c : ascii) : bool :=
  let n := nat_of_ascii c in ((48 <=? n) && (n <=? 57))%nat.

Fixpoint all_chars (p : ascii -> bool) (s : string) : bool :=
  match s with
  | EmptyString => true
  | String c rest => p c && all_chars p rest
  end.

Definition underscore : ascii := "_"%char.
Definition colon : ascii := ":"%char.

(** [model.IsValidMetricName]: [[a-zA-Z_:][a-zA-Z0-9_:]*]. *)
Definition IsValidMetricName (s : string) : bool :=
  match s with
  | EmptyString => false
  | String c rest =>
      (is_alpha c || Ascii.eqb c underscore || Ascii.eqb c colon)
      && all_chars (fun d => is_alpha d || is_digit d
                             || Ascii.eqb d underscore || Ascii.eqb d colon)
                   rest
  end.

(** [checkLabelName]: [[a-zA-Z_][a-zA-Z0-9_]*], not starting with [__]. *)
Definition checkLabelName (s : string) : bool :=
  match s with
  | EmptyString => false
  | String c rest =>
      (is_alpha c || Ascii.eqb c underscore)
      && all_chars (fun d => is_alpha d || is_digit d
                             || Ascii.eqb d underscore) rest
      && negb (String.prefix "__" s)
  end.

Fixpoint has_duplicate (l : list string) : bool :=
  match l with
  | [] => false
  | x :: rest => existsb (String.eqb x) rest || has_duplicate rest
  end.

(** [strings.Join] with a one-character separator. *)
Fixpoint Join (parts : list string) (sep : string) : string :=
  match parts with
  | [] => ""
  | [p] => p
  | p :: rest => (p ++ sep ++ Join rest sep)%string
  end.

Definition BuildFQName (namespace subsystem name : string) : string :=
  if String.eqb name "" then ""
  else if negb (String.eqb namespace "") && negb (String.eqb subsystem "")
       then Join [namespace; subsystem; name] "_"
  else if negb (String.eqb namespace "")
       then Join [namespace; name] "_"
  else if negb (String.eqb subsystem "")
       then Join [subsystem; name] "_"
  else name.

(** A descriptor: fully-qualified name, help text, ordered variable label
    names, and the error [NewDesc] found, if any. *)
Record Desc : Set := {
  fqName : string;
  help : string;
  variableLabels : list string;
  err : option string
}.

(** [NewDesc] with [nil] constant labels, the only way the collector
    calls it. *)
Definition NewDesc (fqName help : string) (variableLabels : list string)
  : Desc :=
  let d e := {| fqName := fqName; help := help;
                variableLabels := variableLabels; err := e |} in
  if String.eqb help "" then d (Some "empty help string")
  else if negb (IsValidMetricName fqName)
       then d (Some "not a valid metric name")
  else if negb (forallb checkLabelName variableLabels)
       then d (Some "not a valid label name")
  else if has_duplicate variableLabels
       then d (Some "duplicate label names")
  else d None.

Inductive ValueType : Set := CounterValue | GaugeValue | UntypedValue.

(** A constant metric: one sample. *)
Record Metric : Set := {
  desc : Desc;
  valType : ValueType;
  val : spec_float;
  labelValues : list string
}.

(** [NewConstMetric]: refuses a broken descriptor and a number of label
    values other than the number of variable labels declared. *)
Definition NewConstMetric (d : Desc) (vt : ValueType) (value : spec_float)
           (lvs : list string) : string + Metric :=
  match err d with
  | Some e => inl e
  | None =>
      if (List.length lvs =? List.length (variableLabels d))%nat
      then inr {| desc := d; valType := vt; val := value;
                  labelValues := lvs |}
      else inl "inconsistent label cardinality"
  end.

End prometheus.

(** ** The query result tree of [organizationQuery] *)

(** [githubql.DateTime] embeds a [time.Time]. *)
Record DateTime : Set := { Time : time.Time }.

Definition DateTime_Unix (d : DateTime) : Z := time.Unix (Time d).

(** The anonymous [struct { TotalCount githubql.Int }] of every connection;
    [githubql.Int] is an [int32]. *)
Record connection : Set := { TotalCount : Z }.

Record repositoryNode : Set := {
  Name : string;
  DiskUsage : Z;
  CreatedAt : DateTime;
  PushedAt : DateTime;
  Stargazers : connection;
  Watchers : connection;
  Forks : connection;
  IssuesOpen : connection;
  IssuesClosed : connection;
  PullRequestsOpen : connection;
  PullRequestsClosed : connection;
  PullRequestsMerged : connection
}.

Record repositories : Set := { Nodes : list repositoryNode }.

Record organization : Set := {
  Login : string;
  Repositories : repositories
}.

Record rateLimit : Set := {
  Limit : Z;
  Remaining : Z;
  ResetAt : DateTime
}.

Record organizationQuery : Set := {
  Organization : organization;
  RateLimit : rateLimit
}.

(** The zero value of [var rateLimit rateLimit]. *)
Definition zeroRateLimit : rateLimit :=
  {| Limit := 0; Remaining := 0; ResetAt := {| Time := time.zero |} |}.

(** ** The collector's static part *)

Definition namespace : string := "github".

(** The eleven descriptors of [OrganizationCollector]; the logger and the
    client are handles on the world the methods run in (see [World]). The Go
    struct calls the first rate-limit descriptor [rateLimit]; that name is
    the snapshot type's here, so the field is [rateLimitDesc]. *)
Record OrganizationCollector : Set := {
  organizations : list string;
  created : prometheus.Desc;
  diskUsage : prometheus.Desc;
  forks : prometheus.Desc;
  issues : prometheus.Desc;
  pullRequests : prometheus.Desc;
  pushed : prometheus.Desc;
  stargazers : prometheus.Desc;
  watchers : prometheus.Desc;
  rateLimitDesc : prometheus.Desc;
  rateLimitRemaining : prometheus.Desc;
  rateLimitReset : prometheus.Desc
}.

Definition NewOrganizationCollector (organizations : list string)
  : OrganizationCollector :=
  {| organizations := organizations;
     created := prometheus.NewDesc
       (prometheus.BuildFQName namespace "repo" "created")
       "Unix timestamp of when the repo was created"
       ["owner"; "name"];
     diskUsage := prometheus.NewDesc
       (prometheus.BuildFQName namespace "repo" "disk_usage_bytes")
       "Bytes of the repository used on disk"
       ["owner"; "name"];
     forks := prometheus.NewDesc
       (prometheus.BuildFQName namespace "repo" "forks")
       "Number of forks of that repo"
       ["owner"; "name"];
     issues := prometheus.NewDesc
       (prometheus.BuildFQName namespace "repo" "issues")
       "Number of issues with a state of open or closed"
       ["owner"; "name"; "state"];
     pullRequests := prometheus.NewDesc
       (prometheus.BuildFQName namespace "repo" "pull_requests")
       "Number of pull requests with a state of open, closed or merged"
       ["owner"; "name"; "state"];
     pushed := prometheus.NewDesc
       (prometheus.BuildFQName namespace "repo" "pushed")
       "Unix timestamp of then the repo was pushed to the last time"
       ["onwer"; "name"];
     stargazers := prometheus.NewDesc
       (prometheus.BuildFQName namespace "repo" "stargazers")
       "Number of users that star the repo"
       ["onwer"; "name"];
     watchers := prometheus.NewDesc
       (prometheus.BuildFQName namespace "repo" "watchers")
       "Number of users that watch the repo"
       ["onwer"; "name"];
     rateLimitDesc := prometheus.NewDesc
       (prometheus.BuildFQName namespace "rate_limit" "limit")
       "The rate limit"
       [];
     rateLimitRemaining := prometheus.NewDesc
       (prometheus.BuildFQName namespace "rate_limit" "remaining")
       "The remaining requests left until hitting the rate limit"
       [];
     rateLimitReset := prometheus.NewDesc
       (prometheus.BuildFQName namespace "rate_limit" "reset_seconds")
       "Unix timestamp when the rate limit will be reset"
       [] |}.

(** ** go-kit log records *)

Inductive Level : Set := DebugLevel | InfoLevel | WarnLevel | ErrorLevel.

Record LogRecord : Set := {
  level : Level;
  keyvals : list (string * string)
}.

(** ** The collector's methods *)
Section Collector.

(** The remote GraphQL endpoint: some state, and a deterministic answer to
    the organization query, an error message or a decoded result tree. *)
Variable Remote : Type.
Variable remoteQuery :
  Remote -> string -> Remote * (string + organizationQuery).

(** Everything the methods touch: the remote, the two channels handed in
    by the registry (what was sent so far, oldest first), the logger's
    output and the list of organizations queried. *)
Record World : Type := {
  remote : Remote;
  metricCh : list prometheus.Metric;
  descCh : list prometheus.Desc;
  logged : list LogRecord;
  queried : list string
}.

(** A computation either completes with a value or panics. *)
Inductive Outcome (A : Type) : Type :=
| Done (a : A) (w : World)
| Panic (msg : string) (w : World).
Arguments Panic {A} msg w.

Definition M (A : Type) : Type := World -> Outcome A.

Definition ret {A} (a : A) : M A := fun w => Done a w.

Definition bind {A B} (m : M A) (k : A -> M B) : M B :=
  fun w => match m w with
           | Done a w' => k a w'
           | Panic msg w' => Panic msg w'
           end.

Definition panic {A} (msg : string) : M A := fun w => Panic msg w.

Notation "x <- m ;; k" := (bind m (fun x => k))
  (at level 61, m at next level, right associativity).
Notation "m ;; k" := (bind m (fun _ => k))
  (at level 61, right associativity).

(** [ch <- m] on the metric channel. *)
Definition sendMetric (m : prometheus.Metric) : M unit :=
  fun w => Done tt {| remote := remote w;
                      metricCh := metricCh w ++ [m];
                      descCh := descCh w;
                      logged := logged w;
                      queried := queried w |}.

(** [ch <- d] on the descriptor channel. *)
Definition sendDesc (d : prometheus.Desc) : M unit :=
  fun w => Done tt {| remote := remote w;
                      metricCh := metricCh w;
                      descCh := descCh w ++ [d];
                      logged := logged w;
                      queried := queried w |}.

(** [level.Warn(c.logger).Log(keyvals...)]. *)
Definition Warn (kvs : list (string * string)) : M unit :=
  fun w => Done tt {| remote := remote w;
                      metricCh := metricCh w;
                      descCh := descCh w;
                      logged := logged w
                                ++ [{| level := WarnLevel; keyvals := kvs |}];
                      queried := queried w |}.

(** [c.client.Query(ctx, &query, variables)] with the one variable
    [organization]. *)
Definition Query (organization : string) : M (string + organizationQuery) :=
  fun w => let (r, a) := remoteQuery (remote w) organization in
           Done a {| remote := r;
                     metricCh := metricCh w;
                     descCh := descCh w;
                     logged := logged w;
                     queried := queried w ++ [organization] |}.

(** [prometheus.MustNewConstMetric]: panics where [NewConstMetric]
    fails. *)
Definition MustNewConstMetric (d : prometheus.Desc)
           (vt : prometheus.ValueType) (value : spec_float)
           (lvs : list string) : M prometheus.Metric :=
  match prometheus.NewConstMetric d vt value lvs with
  | inr m => ret m
  | inl e => panic e
  end.

(** [ch <- prometheus.MustNewConstMetric(d, GaugeValue, v, lvs...)]. *)
Definition emit (d : prometheus.Desc) (value : spec_float)
           (lvs : list string) : M unit :=
  m <- MustNewConstMetric d prometheus.GaugeValue value lvs ;;
  sendMetric m.

Definition Describe (c : OrganizationCollector) : M unit :=
  sendDesc (created c) ;;
  sendDesc (diskUsage c) ;;
  sendDesc (forks c) ;;
  sendDesc (issues c) ;;
  sendDesc (pullRequests c) ;;
  sendDesc (pushed c) ;;
  sendDesc (stargazers c) ;;
  sendDesc (watchers c) ;;
  sendDesc (rateLimitDesc c) ;;
  sendDesc (rateLimitRemaining c) ;;
  sendDesc (rateLimitReset c).

(** The body of [for _, repo := range query.Organization.Repositories.Nodes]. *)
Definition collectRepo (c : OrganizationCollector)
           (query : organizationQuery) (repo : repositoryNode) : M unit :=
  let login := Login (Organization query) in
  emit (created c) (float64 (DateTime_Unix (CreatedAt repo)))
       [login; Name repo] ;;
  emit (diskUsage c) (float64 (DiskUsage repo))
       [login; Name repo] ;;
  emit (forks c) (float64 (TotalCount (Forks repo)))
       [login; Name repo] ;;
  emit (issues c) (float64 (TotalCount (IssuesOpen repo)))
       [login; Name repo; "open"] ;;
  emit (issues c) (float64 (TotalCount (IssuesClosed repo)))
       [login; Name repo; "closed"] ;;
  emit (pullRequests c) (float64 (TotalCount (PullRequestsOpen repo)))
       [login; Name repo; "open"] ;;
  emit (pullRequests c) (float64 (TotalCount (PullRequestsClosed repo)))
       [login; Name repo; "closed"] ;;
  emit (pullRequests c) (float64 (TotalCount (PullRequestsMerged repo)))
       [login; Name repo; "merged"] ;;
  emit (pushed c) (float64 (DateTime_Unix (PushedAt repo)))
       [login; Name repo] ;;
  emit (stargazers c) (float64 (TotalCount (Stargazers repo)))
       [login; Name repo] ;;
  emit (watchers c) (float64 (TotalCount (Watchers repo)))
       [login; Name repo].

(** The inner [range] loop. *)
Fixpoint rangeNodes (c : OrganizationCollector) (query : organizationQuery)
         (nodes : list repositoryNode) : M unit :=
  match nodes with
  | [] => ret tt
  | repo :: rest => collectRepo c query repo ;; rangeNodes c query rest
  end.

(** How the outer loop ends: it runs off the end of the list with the
    current snapshot, or the method returns from inside it. *)
Inductive LoopExit : Set :=
| FellThrough (rl : rateLimit)
| Returned.

(** The outer [range c.organizations] loop; [rl] is the local variable
    [rateLimit]. *)
Fixpoint rangeOrganizations (c : OrganizationCollector)
         (orgs : list string) (rl : rateLimit) : M LoopExit :=
  match orgs with
  | [] => ret (FellThrough rl)
  | organization :: rest =>
      r <- Query organization ;;
      match r with
      | inl e =>
          Warn [("msg", "failed to execute organization query successfully");
                ("err", e)] ;;
          ret Returned
      | inr query =>
          rangeNodes c query (Nodes (Repositories (Organization query))) ;;
          rangeOrganizations c rest (RateLimit query)
      end
  end.

Definition Collect (c : OrganizationCollector) : M unit :=
  x <- rangeOrganizations c (organizations c) zeroRateLimit ;;
  match x with
  | Returned => ret tt
  | FellThrough rl =>
      emit (rateLimitDesc c) (float64 (Limit rl)) [] ;;
      emit (rateLimitRemaining c) (float64 (Remaining rl)) [] ;;
      emit (rateLimitReset c) (float64 (DateTime_Unix (ResetAt rl))) []
  end.

End Collector.

Arguments Done {Remote A} a w.
Arguments Panic {Remote A} msg w.

(** ** What a cycle is expected to produce, as plain lists *)

(** A gauge sample. *)
Definition gauge (d : prometheus.Desc) (value : spec_float)
           (lvs : list string) : prometheus.Metric :=
  {| prometheus.desc := d;
     prometheus.valType := prometheus.GaugeValue;
     prometheus.val := value;
     prometheus.labelValues := lvs |}.

(** The samples of one repository node of one organization. *)
Definition repoMetrics (c : OrganizationCollector) (query : organizationQuery)
           (repo : repositoryNode) : list prometheus.Metric :=
  let owner := Login (Organization query) in
  [ gauge (created c) (float64 (DateTime_Unix (CreatedAt repo)))
          [owner; Name repo];
    gauge (diskUsage c) (float64 (DiskUsage repo)) [owner; Name repo];
    gauge (forks c) (float64 (TotalCount (Forks repo))) [owner; Name repo];
    gauge (issues c) (float64 (TotalCount (IssuesOpen repo)))
          [owner; Name repo; "open"];
    gauge (issues c) (float64 (TotalCount (IssuesClosed repo)))
          [owner; Name repo; "closed"];
    gauge (pullRequests c) (float64 (TotalCount (PullRequestsOpen repo)))
          [owner; Name repo; "open"];
    gauge (pullRequests c) (float64 (TotalCount (PullRequestsClosed repo)))
          [owner; Name repo; "closed"];
    gauge (pullRequests c) (float64 (TotalCount (PullRequestsMerged repo)))
          [owner; Name repo; "merged"];
    gauge (pushed c) (float64 (DateTime_Unix (PushedAt repo)))
          [owner; Name repo];
    gauge (stargazers c) (float64 (TotalCount (Stargazers repo)))
          [owner; Name repo];
    gauge (watchers c) (float64 (TotalCount (Watchers repo)))
          [owner; Name repo] ].

(** The samples of one organization: those of its nodes, in list order. *)
Definition orgMetrics (c : OrganizationCollector) (query : organizationQuery)
  : list prometheus.Metric :=
  flat_map (repoMetrics c query) (Nodes (Repositories (Organization query))).

(** The three rate-limit samples of a snapshot. *)
Definition rateLimitMetrics (c : OrganizationCollector) (rl : rateLimit)
  : list prometheus.Metric :=
  [ gauge (rateLimitDesc c) (float64 (Limit rl)) [];
    gauge (rateLimitRemaining c) (float64 (Remaining rl)) [];
    gauge (rateLimitReset c) (float64 (DateTime_Unix (ResetAt rl))) [] ].

(** The descriptors in the order [Describe] sends them. *)
Definition descriptors (c : OrganizationCollector) : list prometheus.Desc :=
  [ created c; diskUsage c; forks c; issues c; pullRequests c; pushed c;
    stargazers c; watchers c;
    rateLimitDesc c; rateLimitRemaining c; rateLimitReset c ].

(** The warning logged when a query fails with message [e]. *)
Definition queryWarning (e : string) : LogRecord :=
  {| level := WarnLevel;
     keyvals := [("msg", "failed to execute organization query successfully");
                 ("err", e)] |}.

(** The snapshot kept after the answers [qs], starting from [rl]. *)
Definition lastRateLimit (rl : rateLimit) (qs : list organizationQuery)
  : rateLimit :=
  fold_left (fun _ q => RateLimit q) qs rl.

Section Cycle.

Variable Remote : Type.
Variable remoteQuery :
  Remote -> string -> Remote * (string + organizationQuery).

(** The answers a cycle over [orgs] receives from the remote in state [r]:
    one per organization, in order, up to and including the first
    failure. *)
Fixpoint observed (r : Remote) (orgs : list string)
  : list (string + organizationQuery) :=
  match orgs with
  | [] => []
  | o :: rest =>
      match remoteQuery r o with
      | (_, inl e) => [inl e]
      | (r', inr q) => inr q :: observed r' rest
      end
  end.

(** The organizations such a cycle asks for. *)
Fixpoint asked (r : Remote) (orgs : list string) : list string :=
  match orgs with
  | [] => []
  | o :: rest =>
      match remoteQuery r o with
      | (_, inl _) => [o]
      | (r', inr _) => o :: asked r' rest
      end
  end.

(** The state it leaves the remote in. *)
Fixpoint remoteAfter (r : Remote) (orgs : list string) : Remote :=
  match orgs with
  | [] => r
  | o :: rest =>
      match remoteQuery r o with
      | (r', inl _) => r'
      | (r', inr _) => remoteAfter r' rest
      end
  end.

End Cycle.

(** The successful answers among those observed. *)
Fixpoint successes (obs : list (string + organizationQuery))
  : list organizationQuery :=
  match obs with
  | [] => []
  | inr q :: rest => q :: successes rest
  | inl _ :: rest => successes rest
  end.

(** The failures among those observed. *)
Fixpoint failures (obs : list (string + organizationQuery)) : list string :=
  match obs with
  | [] => []
  | inl e :: rest => e :: failures rest
  | inr _ :: rest => failures rest
  end.

(** How the outer loop leaves, from what it observed. *)
Definition exitOf (rl : rateLimit) (obs : list (string + organizationQuery))
  : LoopExit :=
  match failures obs with
  | [] => FellThrough (lastRateLimit rl (successes obs))
  | _ :: _ => Returned
  end.

(** The samples of a whole cycle, from what it observed. *)
Definition cycleMetrics (c : OrganizationCollector)
           (obs : list (string + organizationQuery))
  : list prometheus.Metric :=
  flat_map (orgMetrics c) (successes obs)
  ++ match exitOf zeroRateLimit obs with
     | FellThrough rl => rateLimitMetrics c rl
     | Returned => []
     end.

(** ** Auxiliary notions for the statements *)

(** A collector whose descriptors are sound and have the label arities the
    methods rely on. *)
Record wellFormed (c : OrganizationCollector) : Prop := {
  wf_err : Forall (fun d => prometheus.err d = None) (descriptors c);
  wf_arity : map (fun d => List.length (prometheus.variableLabels d))
                 (descriptors c)
             = [2; 2; 2; 3; 3; 2; 2; 2; 0; 0; 0]%nat
}.

(** The world after [ms] more samples went down the metric channel. *)
Definition sent {Remote : Type} (w : World Remote)
           (ms : list prometheus.Metric) : World Remote :=
  {| remote := remote w;
     metricCh := metricCh w ++ ms;
     descCh := descCh w;
     logged := logged w;
     queried := queried w |}.

(** The world after [ds] more descriptors went down the descriptor
    channel. *)
Definition described {Remote : Type} (w : World Remote)
           (ds : list prometheus.Desc) : World Remote :=
  {| remote := remote w;
     metricCh := metricCh w;
     descCh := descCh w ++ ds;
     logged := logged w;
     queried := queried w |}.

(** The raw integers behind the samples of one repository node, in emission
    order. *)
Definition repoIntegers (repo : repositoryNode) : list Z :=
  [ time.Unix (Time (CreatedAt repo));
    DiskUsage repo;
    TotalCount (Forks repo);
    TotalCount (IssuesOpen repo);
    TotalCount (IssuesClosed repo);
    TotalCount (PullRequestsOpen repo);
    TotalCount (PullRequestsClosed repo);
    TotalCount (PullRequestsMerged repo);
    time.Unix (Time (PushedAt repo));
    TotalCount (Stargazers repo);
    TotalCount (Watchers repo) ].

(** The raw integers behind the three rate-limit samples. *)
Definition rateLimitIntegers (rl : rateLimit) : list Z :=
  [ Limit rl; Remaining rl; time.Unix (Time (ResetAt rl)) ].

(** The number of label values of a sample is the number of label names its
    descriptor declares. *)
Definition arityMatches (m : prometheus.Metric) : Prop :=
  List.length (prometheus.labelValues m)
  = List.length (prometheus.variableLabels (prometheus.desc m)).

(** The world a completed computation leaves. *)
Definition worldOf {Remote A : Type} (o : Outcome Remote A) : World Remote :=
  match o with
  | Done _ w => w
  | Panic _ w => w
  end.

(** ** A scripted remote, for running the collector on concrete answers *)

(** The remote answers from a script, one entry per query, and fails once
    the script is used up. *)
Definition scriptedQuery (script : list (string + organizationQuery))
           (organization : string)
  : list (string + organizationQuery) * (string + organizationQuery) :=
  match script with
  | [] => ([], inl "unexpected query")
  | a :: rest => (rest, a)
  end.

Definition world0 (script : list (string + organizationQuery))
  : World (list (string + organizationQuery)) :=
  {| remote := script; metricCh := []; descCh := []; logged := [];
     queried := [] |}.

(** The instant [seconds] after January 1, 1970 UTC in Go's representation:
    no monotonic reading, no nanoseconds, and [ext] counting seconds from
    January 1 of year 1, 62135596800 seconds before 1970. *)
Definition instant (seconds : Z) : DateTime :=
  {| Time := {| time.wall := 0; time.ext := seconds + 62135596800 |} |}.

Definition count (n : Z) : connection := {| TotalCount := n |}.

(** Repository "widget" of organization "acme". *)
Definition widget : repositoryNode :=
  {| Name := "widget"; DiskUsage := 42;
     CreatedAt := instant 1500000000; PushedAt := instant 1510000000;
     Stargazers := count 11; Watchers := count 13; Forks := count 3;
     IssuesOpen := count 5; IssuesClosed := count 7;
     PullRequestsOpen := count 1; PullRequestsClosed := count 2;
     PullRequestsMerged := count 4 |}.

Definition gadget : repositoryNode :=
  {| Name := "gadget"; DiskUsage := 7;
     CreatedAt := instant 1400000000; PushedAt := instant 1410000000;
     Stargazers := count 0; Watchers := count 1; Forks := count 0;
     IssuesOpen := count 0; IssuesClosed := count 1;
     PullRequestsOpen := count 0; PullRequestsClosed := count 0;
     PullRequestsMerged := count 9 |}.

Definition acme : organizationQuery :=
  {| Organization := {| Login := "acme";
                        Repositories := {| Nodes := [widget] |} |};
     RateLimit := {| Limit := 5000; Remaining := 4999;
                     ResetAt := instant 1510003600 |} |}.

Definition globex : organizationQuery :=
  {| Organization := {| Login := "globex";
                        Repositories := {| Nodes := [gadget; widget] |} |};
     RateLimit := {| Limit := 5000; Remaining := 4998;
                     ResetAt := instant 1510003600 |} |}.

(** ** The earlier collector, for a single organization

    The second collector of the repository: one organization string, four
    descriptors, five samples per repository, no rate limit. Its query tree
    has the same organization and repository nodes and no rate-limit
    field. *)
Module basic.

Record organizationQuery : Set := { Organization : organization }.

(** The four descriptors; [orgs] is handed to the query as it is. *)
Record OrganizationCollector : Set := {
  orgs : string;
  created : prometheus.Desc;
  diskUsage : prometheus.Desc;
  forks : prometheus.Desc;
  issues : prometheus.Desc
}.

Definition NewOrganizationCollector (orgs : string) : OrganizationCollector :=
  {| orgs := orgs;
     created := prometheus.NewDesc
       (prometheus.BuildFQName namespace "repo" "created")
       "Unix timestamp of when the repo was created"
       ["owner"; "name"];
     diskUsage := prometheus.NewDesc
       (prometheus.BuildFQName namespace "repo" "disk_usage_bytes")
       "Bytes of the repository used on disk"
       ["owner"; "name"];
     forks := prometheus.NewDesc
       (prometheus.BuildFQName namespace "repo" "forks")
       "Number of forks of that repo"
       ["owner"; "name"];
     issues := prometheus.NewDesc
       (prometheus.BuildFQName namespace "repo" "issues")
       "Number of issues with a state of open or closed"
       ["owner"; "name"; "state"] |}.

Section Methods.

Variable Remote : Type.
Variable remoteQuery :
  Remote -> string -> Remote * (string + organizationQuery).

Local Notation "x <- m ;; k" := (bind m (fun x => k))
  (at level 61, m at next level, right associativity).
Local Notation "m ;; k" := (bind m (fun _ => k))
  (at level 61, right associativity).

(** [c.client.Query(ctx, &query, variables)]. *)
Definition Query (organization : string)
  : M Remote (string + organizationQuery) :=
  fun w => let (r, a) := remoteQuery (remote w) organization in
           Done a {| remote := r;
                     metricCh := metricCh w;
                     descCh := descCh w;
                     logged := logged w;
                     queried := queried w ++ [organization] |}.

Definition Describe (c : OrganizationCollector) : M Remote unit :=
  sendDesc (created c) ;;
  sendDesc (diskUsage c) ;;
  sendDesc (forks c) ;;
  sendDesc (issues c).

(** The body of the [range] loop over the nodes. *)
Definition collectRepo (c : OrganizationCollector)
           (query : organizationQuery) (repo : repositoryNode)
  : M Remote unit :=
  let login := Login (Organization query) in
  emit (created c) (float64 (DateTime_Unix (CreatedAt repo)))
       [login; Name repo] ;;
  emit (diskUsage c) (float64 (DiskUsage repo))
       [login; Name repo] ;;
  emit (forks c) (float64 (TotalCount (Forks repo)))
       [login; Name repo] ;;
  emit (issues c) (float64 (TotalCount (IssuesOpen repo)))
       [login; Name repo; "open"] ;;
  emit (issues c) (float64 (TotalCount (IssuesClosed repo)))
       [login; Name repo; "closed"].

Fixpoint rangeNodes (c : OrganizationCollector) (query : organizationQuery)
         (nodes : list repositoryNode) : M Remote unit :=
  match nodes with
  | [] => ret tt
  | repo :: rest => collectRepo c query repo ;; rangeNodes c query rest
  end.

Definition Collect (c : OrganizationCollector) : M Remote unit :=
  r <- Query (orgs c) ;;
  match r with
  | inl e =>
      Warn [("msg", "failed to execute organization query successfully");
            ("err", e)] ;;
      ret tt
  | inr query =>
      rangeNodes c query (Nodes (Repositories (Organization query)))
  end.

End Methods.

(** The samples of one repository node, as a plain list. *)
Definition repoMetrics (c : OrganizationCollector) (query : organizationQuery)
           (repo : repositoryNode) : list prometheus.Metric :=
  let owner := Login (Organization query) in
  [ gauge (created c) (float64 (DateTime_Unix (CreatedAt repo)))
          [owner; Name repo];
    gauge (diskUsage c) (float64 (DiskUsage repo)) [owner; Name repo];
    gauge (forks c) (float64 (TotalCount (Forks repo))) [owner; Name repo];
    gauge (issues c) (float64 (TotalCount (IssuesOpen repo)))
          [owner; Name repo; "open"];
    gauge (issues c) (float64 (TotalCount (IssuesClosed repo)))
          [owner; Name repo; "closed"] ].

(** The descriptors in the order [Describe] sends them. *)
Definition descriptors (c : OrganizationCollector) : list prometheus.Desc :=
  [ created c; diskUsage c; forks c; issues c ].

End basic.

(** The answer the earlier collector's query sees when the remote holds
    [q]: the same organization tree, the rate limit not asked for. *)
Definition withoutRateLimit (q : organizationQuery) : basic.organizationQuery :=
  {| basic.Organization := Organization q |}.

(** ** Go's [strings] package, as [main] uses it *)
Module strings.

(** [strings.Split(s, sep)] for a separator of one byte: the pieces of [s]
    between the occurrences of [sep], in order; [s] itself when there is
    none. *)
Fixpoint Split (s : string) (sep : ascii) : list string :=
  match s with
  | EmptyString => [EmptyString]
  | String c rest =>
      if Ascii.eqb c sep
      then EmptyString :: Split rest sep
      else match Split rest sep with
           | [] => [String c EmptyString]
           | piece :: pieces => String c piece :: pieces
           end
  end.

(** [strings.Count(s, sep)] for a separator of one byte. *)
Fixpoint Count (s : string) (sep : ascii) : nat :=
  match s with
  | EmptyString => 0%nat
  | String c rest => ((if Ascii.eqb c sep then 1 else 0) + Count rest sep)%nat
  end.

(** [strings.Contains(s, sep)] for a separator of one byte. *)
Fixpoint Contains (s : string) (sep : ascii) : bool :=
  match s with
  | EmptyString => false
  | String c rest => Ascii.eqb c sep || Contains rest sep
  end.

End strings.

(** ** go-kit's level filter *)





(** ** [main]: configuration and wiring *)













(** ** More notions for the statements *)

(** Seconds from January 1, 1970 UTC to an instant that Go holds as
    seconds from January 1 of year 1. *)
Definition epochSeconds (t : DateTime) : Z :=
  time.ext (Time t) - 62135596800.

(** An instant as the JSON decoder builds it, without monotonic clock
    reading, and less than 2^53 seconds from 1970. *)
Definition wallClock (t : DateTime) : bool :=
  (Z.land (time.wall (Time t)) time.hasMonotonic =? 0)
  && (- 2 ^ 53 <? epochSeconds t) && (epochSeconds t <? 2 ^ 53).

(** A value of [githubql.Int], an [int32]. *)
Definition int32Range (n : Z) : bool :=
  (- 2 ^ 31 <=? n) && (n <? 2 ^ 31).

(** A repository node, a rate-limit snapshot and an answer whose counts are
    [int32] values and whose instants are wall-clock instants. *)
Definition decodedNode (repo : repositoryNode) : bool :=
  wallClock (CreatedAt repo) && wallClock (PushedAt repo)
  && forallb int32Range
             [ DiskUsage repo;
               TotalCount (Forks repo);
               TotalCount (IssuesOpen repo);
               TotalCount (IssuesClosed repo);
               TotalCount (PullRequestsOpen repo);
               TotalCount (PullRequestsClosed repo);
               TotalCount (PullRequestsMerged repo);
               TotalCount (Stargazers repo);
               TotalCount (Watchers repo) ].

Definition decodedRateLimit (rl : rateLimit) : bool :=
  int32Range (Limit rl) && int32Range (Remaining rl) && wallClock (ResetAt rl).

Definition decodedAnswer (q : organizationQuery) : bool :=
  forallb decodedNode (Nodes (Repositories (Organization q)))
  && decodedRateLimit (RateLimit q).

(** The numbers the samples of one repository node stand for, timestamps
    in seconds from 1970. *)
Definition repoNumbers (repo : repositoryNode) : list Z :=
  [ epochSeconds (CreatedAt repo);
    DiskUsage repo;
    TotalCount (Forks repo);
    TotalCount (IssuesOpen repo);
    TotalCount (IssuesClosed repo);
    TotalCount (PullRequestsOpen repo);
    TotalCount (PullRequestsClosed repo);
    TotalCount (PullRequestsMerged repo);
    epochSeconds (PushedAt repo);
    TotalCount (Stargazers repo);
    TotalCount (Watchers repo) ].

(** The numbers the three rate-limit samples stand for. *)
Definition rateLimitNumbers (rl : rateLimit) : list Z :=
  [ Limit rl; Remaining rl; epochSeconds (ResetAt rl) ].

(** A sample of one of the three rate-limit families. *)
Definition rateLimitSample (m : prometheus.Metric) : bool :=
  String.prefix "github_rate_limit"
                (prometheus.fqName (prometheus.desc m)).

(** What identifies a time series: the family name and the label values. *)
Definition seriesKey (m : prometheus.Metric) : string * list string :=
  (prometheus.fqName (prometheus.desc m), prometheus.labelValues m).

(** The repository nodes of a list of answers. *)
Definition allNodes (qs : list organizationQuery) : list repositoryNode :=
  flat_map (fun q => Nodes (Repositories (Organization q))) qs.

(** A sample of one of the families named. *)
Definition inFamilies (names : list string) (m : prometheus.Metric) : bool :=
  existsb (String.eqb (prometheus.fqName (prometheus.desc m))) names.

(** ** Integers that binary64 represents exactly *)

Lemma digits2_pos_size (p : positive) : digits2_pos p = Pos.size p.
Proof. induction p; simpl; congruence. Qed.

Lemma iter_xO_value (m k : positive) :
  Z.pos (Pos.iter xO m k) = Z.pos m * 2 ^ Z.pos k.
Proof.
  induction k using Pos.peano_ind.
  - simpl. lia.
  - rewrite Pos.iter_succ, Pos2Z.inj_succ, Z.pow_succ_r by lia.
    rewrite Pos2Z.inj_xO, IHk. ring.
Qed.

Lemma iter_xO_digits (m k : positive) :
  digits2_pos (Pos.iter xO m k) = (digits2_pos m + k)%positive.
Proof.
  induction k using Pos.peano_ind.
  - simpl. lia.
  - rewrite Pos.iter_succ. simpl. rewrite IHk. lia.
Qed.

Lemma digits2_pos_bound (m : positive) :
  Z.pos m < 2 ^ 53 -> Z.pos (digits2_pos m) <= 53.
Proof.
  intros H. rewrite digits2_pos_size.
  pose proof (Pos.size_le m) as Hs.
  destruct (Z.le_gt_cases (Z.pos (Pos.size m)) 53) as [|Hgt]; [assumption|].
  exfalso.
  assert (2 ^ 54 <= 2 ^ Z.pos (Pos.size m)) by (apply Z.pow_le_mono_r; lia).
  assert (Z.pos (2 ^ Pos.size m) <= Z.pos m~0) by (apply Pos2Z.pos_le_pos; exact Hs).
  rewrite Pos2Z.inj_pow in H1. change (2^54) with (2 * 2^53) in H0. lia.
Qed.

Lemma shr_fexp_full (mz : positive) (ez : Z) :
  Z.pos (digits2_pos mz) = 53 -> -1074 <= ez ->
  shr_fexp 53 1024 (Z.pos mz) ez loc_Exact
  = ({| shr_m := Z.pos mz; shr_r := false; shr_s := false |}, ez).
Proof.
  intros Hd He. unfold shr_fexp, fexp, emin. cbn [Zdigits2 shr_record_of_loc].
  rewrite Hd.
  replace (Z.max (53 + ez - 53) (3 - 1024 - 53) - ez) with 0 by lia.
  reflexivity.
Qed.

Lemma binary_round_aux_full (s : bool) (mz : positive) (ez : Z) :
  Z.pos (digits2_pos mz) = 53 -> -1074 <= ez <= 971 ->
  binary_round_aux 53 1024 s (Z.pos mz) ez loc_Exact = S754_finite s mz ez.
Proof.
  intros Hd He. unfold binary_round_aux.
  rewrite shr_fexp_full by lia.
  cbn [shr_m loc_of_shr_record round_nearest_even].
  rewrite shr_fexp_full by lia. cbn [shr_m].
  replace (ez <=? 1024 - 53) with true by (symmetry; apply Z.leb_le; lia).
  reflexivity.
Qed.

Lemma binary_round_exact (s : bool) (m : positive) :
  Z.pos m < 2 ^ 53 ->
  float64_int (binary_round 53 1024 s m 0)
  = Some (if s then Z.neg m else Z.pos m).
Proof.
  intros Hm. pose proof (@digits2_pos_bound m Hm) as Hd.
  unfold binary_round, shl_align, fexp, emin.
  rewrite Z.add_0_r, Z.sub_0_r.
  rewrite Z.max_l by lia.
  destruct (Z.pos (digits2_pos m) - 53) as [|k|k] eqn:Hk; try lia.
  - rewrite binary_round_aux_full by lia.
    unfold float64_int. cbn. destruct s; f_equal; lia.
  - rewrite binary_round_aux_full by (rewrite ?iter_xO_digits; lia).
    unfold float64_int.
    replace (0 <=? Z.neg k) with false by (symmetry; apply Z.leb_gt; lia).
    rewrite iter_xO_value. cbn [Z.opp].
    rewrite Z_mod_mult, Z.eqb_refl.
    f_equal. destruct s.
    + change (Z.neg (Pos.iter xO m k)) with (- Z.pos (Pos.iter xO m k)).
      rewrite iter_xO_value. rewrite <- Z.mul_opp_l, Z_div_mult by lia.
      reflexivity.
    + rewrite Z_div_mult by lia. reflexivity.
Qed.

Lemma float64_exact (z : Z) :
  Z.abs z < 2 ^ 53 -> float64_int (float64 z) = Some z.
Proof.
  intros H. destruct z as [|m|m]; unfold float64, binary_normalize.
  - reflexivity.
  - apply (binary_round_exact false). exact H.
  - apply (binary_round_exact true). exact H.
Qed.

Lemma int32_range (z : Z) : - 2 ^ 31 <= int32 z < 2 ^ 31.
Proof.
  unfold int32.
  pose proof (Z.mod_pos_bound (z + 2 ^ 31) (2 ^ 32) ltac:(lia)). lia.
Qed.

Lemma int64_small (z : Z) : - 2 ^ 63 <= z < 2 ^ 63 -> int64 z = z.
Proof.
  intros H. unfold int64. rewrite Z.mod_small by lia. lia.
Qed.

(** ** [Unix()] of wall-clock instants *)

(** [Unix()] subtracts the 62135596800 seconds between year 1 and 1970
    from the internal seconds, in [int64]. *)
Lemma Unix_internal (t : time.Time) :
  time.Unix t = int64 (time.sec t - 62135596800).
Proof. reflexivity. Qed.

Lemma Unix_wall_clock (t : DateTime) :
  Z.land (time.wall (Time t)) time.hasMonotonic = 0 ->
  - 2 ^ 63 <= time.ext (Time t) - 62135596800 < 2 ^ 63 ->
  time.Unix (Time t) = time.ext (Time t) - 62135596800.
Proof.
  intros Hwall Hrange. rewrite Unix_internal. unfold time.sec.
  rewrite Hwall. cbn [Z.eqb]. now apply int64_small.
Qed.

Lemma wallClock_exact (t : DateTime) :
  wallClock t = true ->
  float64_int (float64 (time.Unix (Time t))) = Some (epochSeconds t).
Proof.
  unfold wallClock, epochSeconds. intros H.
  apply andb_prop in H. destruct H as [H Hhi].
  apply andb_prop in H. destruct H as [Hwall Hlo].
  apply Z.eqb_eq in Hwall. apply Z.ltb_lt in Hlo, Hhi.
  rewrite (@Unix_wall_clock t Hwall) by lia.
  apply float64_exact. lia.
Qed.

Lemma int32Range_exact (n : Z) :
  int32Range n = true -> float64_int (float64 n) = Some n.
Proof.
  unfold int32Range. intros H. apply andb_prop in H. destruct H as [Hlo Hhi].
  apply Z.leb_le in Hlo. apply Z.ltb_lt in Hhi.
  apply float64_exact. lia.
Qed.

Lemma decodedNode_exact (repo : repositoryNode) :
  decodedNode repo = true ->
  map (fun z => float64_int (float64 z))
      [ time.Unix (Time (CreatedAt repo));
        DiskUsage repo;
        TotalCount (Forks repo);
        TotalCount (IssuesOpen repo);
        TotalCount (IssuesClosed repo);
        TotalCount (PullRequestsOpen repo);
        TotalCount (PullRequestsClosed repo);
        TotalCount (PullRequestsMerged repo);
        time.Unix (Time (PushedAt repo));
        TotalCount (Stargazers repo);
        TotalCount (Watchers repo) ]
  = map Some (repoNumbers repo).
Proof.
  unfold decodedNode. intros H.
  apply andb_prop in H. destruct H as [H Hcounts].
  apply andb_prop in H. destruct H as [Hc Hp].
  cbn [forallb] in Hcounts.
  repeat match goal with
         | Hx : _ && _ = true |- _ =>
             apply andb_prop in Hx; destruct Hx
         end.
  cbn [map repoNumbers].
  rewrite (wallClock_exact _ Hc), (wallClock_exact _ Hp).
  repeat match goal with
         | Hx : int32Range ?n = true |- _ =>
             rewrite (int32Range_exact n Hx); clear Hx
         end.
  reflexivity.
Qed.

Lemma decodedRateLimit_exact (rl : rateLimit) :
  decodedRateLimit rl = true ->
  map (fun z => float64_int (float64 z))
      [ Limit rl; Remaining rl; time.Unix (Time (ResetAt rl)) ]
  = map Some (rateLimitNumbers rl).
Proof.
  unfold decodedRateLimit. intros H.
  apply andb_prop in H. destruct H as [H Hreset].
  apply andb_prop in H. destruct H as [Hl Hr].
  cbn [map rateLimitNumbers].
  now rewrite (int32Range_exact _ Hl), (int32Range_exact _ Hr),
    (wallClock_exact _ Hreset).
Qed.

Lemma decodedRateLimit_last (rl : rateLimit) (qs : list organizationQuery) :
  decodedRateLimit rl = true ->
  forallb decodedAnswer qs = true ->
  decodedRateLimit (lastRateLimit rl qs) = true.
Proof.
  unfold lastRateLimit. revert rl.
  induction qs as [|q qs IH]; intros rl Hrl Hqs; [exact Hrl|].
  cbn [forallb] in Hqs. apply andb_prop in Hqs. destruct Hqs as [Hq Hqs].
  cbn [fold_left]. apply IH; [|exact Hqs].
  unfold decodedAnswer in Hq. apply andb_prop in Hq. tauto.
Qed.

(** ** The descriptors built at construction *)

Lemma NewOrganizationCollector_descriptors (orgs : list string) :
  descriptors (NewOrganizationCollector orgs) =
  let d n h ls := {| prometheus.fqName := n; prometheus.help := h;
                     prometheus.variableLabels := ls;
                     prometheus.err := None |} in
  [ d "github_repo_created" "Unix timestamp of when the repo was created"
      ["owner"; "name"];
    d "github_repo_disk_usage_bytes" "Bytes of the repository used on disk"
      ["owner"; "name"];
    d "github_repo_forks" "Number of forks of that repo" ["owner"; "name"];
    d "github_repo_issues" "Number of issues with a state of open or closed"
      ["owner"; "name"; "state"];
    d "github_repo_pull_requests"
      "Number of pull requests with a state of open, closed or merged"
      ["owner"; "name"; "state"];
    d "github_repo_pushed"
      "Unix timestamp of then the repo was pushed to the last time"
      ["onwer"; "name"];
    d "github_repo_stargazers" "Number of users that star the repo"
      ["onwer"; "name"];
    d "github_repo_watchers" "Number of users that watch the repo"
      ["onwer"; "name"];
    d "github_rate_limit_limit" "The rate limit" [];
    d "github_rate_limit_remaining"
      "The remaining requests left until hitting the rate limit" [];
    d "github_rate_limit_reset_seconds"
      "Unix timestamp when the rate limit will be reset" [] ].
Proof. vm_compute. reflexivity. Qed.

Lemma NewOrganizationCollector_wellFormed (orgs : list string) :
  wellFormed (NewOrganizationCollector orgs).
Proof.
  split.
  - rewrite NewOrganizationCollector_descriptors. cbv zeta.
    repeat constructor.
  - rewrite NewOrganizationCollector_descriptors. reflexivity.
Qed.

Section CycleFacts.

Variable Remote : Type.
Variable remoteQuery :
  Remote -> string -> Remote * (string + organizationQuery).

Abbreviation World := (World Remote).

Lemma sent_nil (w : World) : sent w [] = w.
Proof. destruct w; unfold sent; simpl. now rewrite app_nil_r. Qed.

Lemma sent_sent (w : World) (a b : list prometheus.Metric) :
  sent (sent w a) b = sent w (a ++ b).
Proof. unfold sent; simpl. now rewrite app_assoc. Qed.

Lemma emit_ok (d : prometheus.Desc) (v : spec_float) (lvs : list string)
      (w : World) :
  prometheus.err d = None ->
  List.length lvs = List.length (prometheus.variableLabels d) ->
  emit d v lvs w = Done tt (sent w [gauge d v lvs]).
Proof.
  intros He Hl.
  unfold emit, bind, MustNewConstMetric, prometheus.NewConstMetric.
  rewrite He. apply Nat.eqb_eq in Hl. rewrite Hl. reflexivity.
Qed.

Lemma bind_Done {A B} (m : M Remote A) (k : A -> M Remote B)
      (w w' : World) (a : A) :
  m w = Done a w' -> bind m k w = k a w'.
Proof. intros H. unfold bind. now rewrite H. Qed.

Variable c : OrganizationCollector.
Hypothesis Hc : wellFormed c.

Ltac descriptor_facts :=
  destruct Hc as [Herr Har]; unfold descriptors in Herr, Har;
  repeat match goal with
         | H : Forall _ (_ :: _) |- _ => inversion H; clear H; subst
         | H : Forall _ [] |- _ => clear H
         end;
  injection Har as ? ? ? ? ? ? ? ? ? ? ?.

Ltac step :=
  erewrite bind_Done by (apply emit_ok; [assumption | simpl; congruence]);
  rewrite ?sent_sent.

Lemma collectRepo_ok (query : organizationQuery) (repo : repositoryNode)
      (w : World) :
  collectRepo c query repo w = Done tt (sent w (repoMetrics c query repo)).
Proof.
  descriptor_facts. unfold collectRepo.
  do 10 step.
  rewrite emit_ok by (assumption || (simpl; congruence)).
  rewrite sent_sent. reflexivity.
Qed.

Lemma rangeNodes_ok (query : organizationQuery)
      (nodes : list repositoryNode) (w : World) :
  rangeNodes c query nodes w
  = Done tt (sent w (flat_map (repoMetrics c query) nodes)).
Proof.
  revert w. induction nodes as [|repo rest IH]; intros w.
  - simpl. now rewrite sent_nil.
  - cbn [rangeNodes flat_map].
    erewrite bind_Done by apply collectRepo_ok.
    rewrite IH, sent_sent. reflexivity.
Qed.

Lemma rateLimit_ok (rl : rateLimit) (w : World) :
  (bind (emit (rateLimitDesc c) (float64 (Limit rl)) [])
     (fun _ => bind (emit (rateLimitRemaining c) (float64 (Remaining rl)) [])
     (fun _ => emit (rateLimitReset c)
                    (float64 (DateTime_Unix (ResetAt rl))) []))) w
  = Done tt (sent w (rateLimitMetrics c rl)).
Proof.
  descriptor_facts.
  do 2 step.
  rewrite emit_ok by (assumption || (simpl; congruence)).
  rewrite sent_sent. reflexivity.
Qed.

(** The outer loop, in one equation: what it returns and the world it
    leaves, from the answers it observes. *)
Lemma rangeOrganizations_ok (orgs : list string) (rl : rateLimit)
      (w : World) :
  rangeOrganizations remoteQuery c orgs rl w
  = let obs := observed remoteQuery (remote w) orgs in
    Done (exitOf rl obs)
         {| remote := remoteAfter remoteQuery (remote w) orgs;
            metricCh := metricCh w ++ flat_map (orgMetrics c) (successes obs);
            descCh := descCh w;
            logged := logged w ++ map queryWarning (failures obs);
            queried := queried w ++ asked remoteQuery (remote w) orgs |}.
Proof.
  revert rl w. induction orgs as [|o rest IH]; intros rl w.
  - simpl. unfold ret, exitOf. simpl. rewrite !app_nil_r.
    now destruct w.
  - cbn [rangeOrganizations observed asked remoteAfter].
    unfold bind at 1. unfold Query.
    destruct (remoteQuery (remote w) o) as [r' [e|q]].
    + cbn. now rewrite app_nil_r.
    + erewrite bind_Done by apply rangeNodes_ok.
      rewrite IH. cbn -[orgMetrics]. unfold exitOf. cbn -[orgMetrics].
      rewrite <- !app_assoc. reflexivity.
Qed.

(** [Collect], in one equation. *)
Lemma Collect_ok (w : World) :
  Collect remoteQuery c w
  = let obs := observed remoteQuery (remote w) (organizations c) in
    Done tt
         {| remote := remoteAfter remoteQuery (remote w) (organizations c);
            metricCh := metricCh w ++ cycleMetrics c obs;
            descCh := descCh w;
            logged := logged w ++ map queryWarning (failures obs);
            queried := queried w
                       ++ asked remoteQuery (remote w) (organizations c) |}.
Proof.
  unfold Collect.
  erewrite bind_Done by apply rangeOrganizations_ok.
  cbv zeta. unfold cycleMetrics.
  destruct (exitOf zeroRateLimit _) as [rl|].
  - rewrite rateLimit_ok. unfold sent. cbn -[orgMetrics rateLimitMetrics].
    now rewrite app_assoc.
  - unfold ret. now rewrite app_nil_r.
Qed.

End CycleFacts.

(** ** Observed answers: list facts *)

Lemma successes_app (a b : list (string + organizationQuery)) :
  successes (a ++ b) = successes a ++ successes b.
Proof.
  induction a as [|[e|q] a IH]; simpl; [reflexivity | assumption |].
  now rewrite IH.
Qed.

Lemma failures_app (a b : list (string + organizationQuery)) :
  failures (a ++ b) = failures a ++ failures b.
Proof.
  induction a as [|[e|q] a IH]; simpl; [reflexivity | | assumption].
  now rewrite IH.
Qed.

Lemma successes_inr (qs : list organizationQuery) :
  successes (map inr qs) = qs.
Proof. induction qs as [|q qs IH]; simpl; [reflexivity | now rewrite IH]. Qed.

Lemma failures_inr (qs : list organizationQuery) :
  failures (map inr qs) = [].
Proof. induction qs as [|q qs IH]; simpl; [reflexivity | assumption]. Qed.

Lemma lastRateLimit_snoc (rl : rateLimit) (qs : list organizationQuery)
      (q : organizationQuery) :
  lastRateLimit rl (qs ++ [q]) = RateLimit q.
Proof. unfold lastRateLimit. now rewrite fold_left_app. Qed.

Section ObservedFacts.

Variable Remote : Type.
Variable remoteQuery :
  Remote -> string -> Remote * (string + organizationQuery).

(** One organization is asked for per answer observed, in the configured
    order. *)
Lemma asked_firstn (r : Remote) (orgs : list string) :
  asked remoteQuery r orgs
  = firstn (List.length (observed remoteQuery r orgs)) orgs.
Proof.
  revert r. induction orgs as [|o rest IH]; intros r; simpl.
  - reflexivity.
  - destruct (remoteQuery r o) as [r' [e|q]]; simpl.
    + reflexivity.
    + now rewrite IH.
Qed.

(** A cycle without failure has heard from every organization. *)
Lemma observed_all (r : Remote) (orgs : list string)
      (qs : list organizationQuery) :
  observed remoteQuery r orgs = map inr qs ->
  List.length qs = List.length orgs.
Proof.
  revert r qs. induction orgs as [|o rest IH]; intros r qs; simpl.
  - destruct qs; [reflexivity | discriminate].
  - destruct (remoteQuery r o) as [r' [e|q]]; destruct qs as [|q' qs];
      simpl; try discriminate.
    intros H. injection H as _ H. f_equal. eauto.
Qed.

(** At most one answer per organization. *)
Lemma observed_length (r : Remote) (orgs : list string) :
  (List.length (observed remoteQuery r orgs) <= List.length orgs)%nat.
Proof.
  revert r. induction orgs as [|o rest IH]; intros r; simpl.
  - lia.
  - destruct (remoteQuery r o) as [r' [e|q]]; simpl; [lia|].
    specialize (IH r'). lia.
Qed.

End ObservedFacts.

(** ** Facts about the expected samples *)

Lemma map_flat_map {A B C : Type} (f : B -> C) (g : A -> list B)
      (l : list A) :
  map f (flat_map g l) = flat_map (fun x => map f (g x)) l.
Proof.
  induction l as [|x l IH]; simpl; [reflexivity|].
  now rewrite map_app, IH.
Qed.

Lemma repoMetrics_arity (orgs : list string) (q : organizationQuery)
      (repo : repositoryNode) :
  Forall arityMatches (repoMetrics (NewOrganizationCollector orgs) q repo).
Proof. repeat constructor. Qed.

Lemma rateLimitMetrics_arity (orgs : list string) (rl : rateLimit) :
  Forall arityMatches (rateLimitMetrics (NewOrganizationCollector orgs) rl).
Proof. repeat constructor. Qed.

Lemma cycleMetrics_arity (orgs : list string)
      (obs : list (string + organizationQuery)) :
  Forall arityMatches (cycleMetrics (NewOrganizationCollector orgs) obs).
Proof.
  unfold cycleMetrics. apply Forall_app. split.
  - apply Forall_flat_map, Forall_forall. intros q _.
    apply Forall_flat_map, Forall_forall. intros repo _.
    apply repoMetrics_arity.
  - destruct (exitOf _ _); [apply rateLimitMetrics_arity | constructor].
Qed.

(** [Describe], in one equation, for any collector. *)
Lemma Describe_ok (Remote : Type) (c : OrganizationCollector)
      (w : World Remote) :
  Describe c w
  = Done tt {| remote := remote w;
               metricCh := metricCh w;
               descCh := descCh w ++ descriptors c;
               logged := logged w;
               queried := queried w |}.
Proof.
  assert (Hsend : forall (d : prometheus.Desc) (w0 : World Remote),
             sendDesc d w0 = Done tt (described w0 [d])) by reflexivity.
  assert (Hjoin : forall (w0 : World Remote) (a b : list prometheus.Desc),
             described (described w0 a) b = described w0 (a ++ b))
    by (intros; unfold described; simpl; now rewrite app_assoc).
  unfold Describe.
  do 10 (erewrite bind_Done by apply Hsend; rewrite ?Hjoin).
  rewrite Hsend, Hjoin. reflexivity.
Qed.

(** The arity check is live: a third label value on a two-label descriptor
    panics and nothing reaches the channel. *)
Example emit_wrong_arity_panics :
  emit (created (NewOrganizationCollector [])) (float64 1)
       ["acme"; "widget"; "open"] (world0 [])
  = Panic "inconsistent label cardinality" (world0 []).
Proof. reflexivity. Qed.

(** Instants built from epoch seconds read back as those seconds. *)
Example instant_Unix : DateTime_Unix (instant 1500000000) = 1500000000.
Proof. reflexivity. Qed.

(** The samples of decoded answers stand for the numbers of the answers. *)
Lemma orgMetrics_decoded (c : OrganizationCollector)
      (qs : list organizationQuery) :
  forallb decodedAnswer qs = true ->
  map (fun m => float64_int (prometheus.val m)) (flat_map (orgMetrics c) qs)
  = map Some
        (flat_map (fun q => flat_map repoNumbers
                                     (Nodes (Repositories (Organization q))))
                  qs).
Proof.
  induction qs as [|q qs IH]; intros H; [reflexivity|].
  cbn [forallb] in H. apply andb_prop in H. destruct H as [Hq Hqs].
  cbn [flat_map]. rewrite !map_app, (IH Hqs). f_equal.
  unfold decodedAnswer in Hq. apply andb_prop in Hq. destruct Hq as [Hn _].
  unfold orgMetrics.
  induction (Nodes (Repositories (Organization q))) as [|repo nodes IHn];
    [reflexivity|].
  cbn [forallb] in Hn. apply andb_prop in Hn. destruct Hn as [Hrepo Hn].
  cbn [flat_map]. rewrite !map_app, (IHn Hn). f_equal.
  exact (decodedNode_exact repo Hrepo).
Qed.

(** ** The stated properties *)

(** C1. When the queries of a cycle succeed up to and including some
    organization, answered by [q], [Collect] emits for that organization,
    right after the samples of the organizations before it, eleven samples
    per repository node, nodes in list order: created, disk usage, forks,
    issues open and closed, pull requests open, closed and merged, pushed,
    stargazers, watchers. Their label values are the organization login and
    the repository name, followed by the state for issues and pull
    requests. *)
Theorem Collect_eleven_samples_per_repository
        (Remote : Type)
        (remoteQuery : Remote -> string -> Remote * (string + organizationQuery))
        (orgs : list string) (w : World Remote)
        (qs : list organizationQuery) (q : organizationQuery)
        (rest : list (string + organizationQuery)) :
  observed remoteQuery (remote w) orgs = map inr qs ++ inr q :: rest ->
  exists (w' : World Remote) (after : list prometheus.Metric),
    Collect remoteQuery (NewOrganizationCollector orgs) w = Done tt w'
    /\ metricCh w'
       = metricCh w
         ++ flat_map (orgMetrics (NewOrganizationCollector orgs)) qs
         ++ flat_map
              (fun repo =>
                 let c := NewOrganizationCollector orgs in
                 let owner := Login (Organization q) in
                 let name := Name repo in
                 [ gauge (created c)
                         (float64 (DateTime_Unix (CreatedAt repo)))
                         [owner; name];
                   gauge (diskUsage c)
                         (float64 (DiskUsage repo))
                         [owner; name];
                   gauge (forks c)
                         (float64 (TotalCount (Forks repo)))
                         [owner; name];
                   gauge (issues c)
                         (float64 (TotalCount (IssuesOpen repo)))
                         [owner; name; "open"];
                   gauge (issues c)
                         (float64 (TotalCount (IssuesClosed repo)))
                         [owner; name; "closed"];
                   gauge (pullRequests c)
                         (float64 (TotalCount (PullRequestsOpen repo)))
                         [owner; name; "open"];
                   gauge (pullRequests c)
                         (float64 (TotalCount (PullRequestsClosed repo)))
                         [owner; name; "closed"];
                   gauge (pullRequests c)
                         (float64 (TotalCount (PullRequestsMerged repo)))
                         [owner; name; "merged"];
                   gauge (pushed c)
                         (float64 (DateTime_Unix (PushedAt repo)))
                         [owner; name];
                   gauge (stargazers c)
                         (float64 (TotalCount (Stargazers repo)))
                         [owner; name];
                   gauge (watchers c)
                         (float64 (TotalCount (Watchers repo)))
                         [owner; name] ])
              (Nodes (Repositories (Organization q)))
         ++ after.
Proof.
  intros Hobs.
  rewrite (Collect_ok remoteQuery (NewOrganizationCollector_wellFormed orgs)).
  cbv zeta. change (organizations (NewOrganizationCollector orgs)) with orgs.
  rewrite Hobs. eexists; eexists. split; [reflexivity|].
  cbn [metricCh]. f_equal. unfold cycleMetrics.
  rewrite successes_app, successes_inr. cbn [successes].
  rewrite flat_map_app. cbn [flat_map]. rewrite <- !app_assoc.
  reflexivity.
Qed.

(** C1, run: two organizations answer; the second one's two repositories
    follow the first one's samples. *)
Lemma Collect_eleven_samples_per_repository_witness :
  exists (w' : World (list (string + organizationQuery)))
         (after : list prometheus.Metric),
    Collect scriptedQuery (NewOrganizationCollector ["acme"; "globex"])
            (world0 [inr acme; inr globex]) = Done tt w'
    /\ List.length (metricCh w') = (11 + 22 + List.length after)%nat.
Proof.
  destruct (@Collect_eleven_samples_per_repository
              _ scriptedQuery ["acme"; "globex"]
              (world0 [inr acme; inr globex]) [acme] globex [] eq_refl)
    as (w' & after & Hrun & Hch).
  exists w', after. split; [exact Hrun|].
  rewrite Hch. reflexivity.
Defined.

(** C2. When the queries of the first k-1 organizations succeed (answers
    [qs]) and the query of organization k fails with [e], [Collect] returns
    normally; the metric channel has received the samples of organizations
    1..k-1 and nothing else, so none for organizations k..N and no
    rate-limit sample; one record was logged, at warning severity;
    organizations after the k-th were not queried. *)
Theorem Collect_fails_fast
        (Remote : Type)
        (remoteQuery : Remote -> string -> Remote * (string + organizationQuery))
        (orgs : list string) (w : World Remote)
        (qs : list organizationQuery) (e : string) :
  observed remoteQuery (remote w) orgs = map inr qs ++ [inl e] ->
  exists w' : World Remote,
    Collect remoteQuery (NewOrganizationCollector orgs) w = Done tt w'
    /\ metricCh w'
       = metricCh w ++ flat_map (orgMetrics (NewOrganizationCollector orgs)) qs
    /\ logged w'
       = logged w
         ++ [{| level := WarnLevel;
                keyvals :=
                  [("msg", "failed to execute organization query successfully");
                   ("err", e)] |}]
    /\ queried w' = queried w ++ firstn (S (List.length qs)) orgs
    /\ (List.length qs < List.length orgs)%nat
    /\ descCh w' = descCh w.
Proof.
  intros Hobs.
  rewrite (Collect_ok remoteQuery (NewOrganizationCollector_wellFormed orgs)).
  cbv zeta. change (organizations (NewOrganizationCollector orgs)) with orgs.
  rewrite asked_firstn, Hobs. eexists. split; [reflexivity|].
  cbn [metricCh logged queried descCh]. unfold cycleMetrics, exitOf.
  rewrite successes_app, failures_app, successes_inr, failures_inr.
  cbn [successes failures app]. rewrite !app_nil_r.
  rewrite length_app, length_map, Nat.add_1_r.
  repeat split.
  pose proof (observed_length remoteQuery (remote w) orgs) as Hle.
  rewrite Hobs, length_app, length_map in Hle. simpl in Hle. lia.
Qed.

(** C2, run: the second of three organizations fails. *)
Lemma Collect_fails_fast_witness :
  exists w' : World (list (string + organizationQuery)),
    Collect scriptedQuery (NewOrganizationCollector ["acme"; "initech"; "globex"])
            (world0 [inr acme; inl "deadline exceeded"; inr globex])
    = Done tt w'
    /\ List.length (metricCh w') = 11%nat
    /\ List.length (logged w') = 1%nat
    /\ queried w' = ["acme"; "initech"].
Proof.
  destruct (@Collect_fails_fast
              _ scriptedQuery ["acme"; "initech"; "globex"]
              (world0 [inr acme; inl "deadline exceeded"; inr globex])
              [acme] "deadline exceeded" eq_refl)
    as (w' & Hrun & Hch & Hlog & Hq & _).
  exists w'. split; [exact Hrun|].
  rewrite Hch, Hlog, Hq. repeat split.
Defined.

(** C3. The single organization "acme" answers with one repository
    "widget": disk usage 42, forks 3, 5 open and 7 closed issues, created at
    [T1]. The first five samples [Collect] emits are created = [T1] in epoch
    seconds, disk usage = 42, forks = 3, issues open = 5, issues closed = 7,
    labelled owner "acme", name "widget", and state "open" or "closed" on
    the two issues samples. Epoch seconds are the instant's internal
    seconds less the 62135596800 seconds from year 1 to 1970, in [int64];
    for a wall-clock instant [T1] less than 2^53 seconds from 1970 the
    created sample stands for exactly [ext - 62135596800]. *)
Theorem Collect_acme_widget
        (Remote : Type)
        (remoteQuery : Remote -> string -> Remote * (string + organizationQuery))
        (w : World Remote) (r' : Remote) (T1 T2 : DateTime)
        (stars watching prOpen prClosed prMerged : Z) (rl : rateLimit) :
  remoteQuery (remote w) "acme"
  = (r', inr {| Organization :=
                  {| Login := "acme";
                     Repositories :=
                       {| Nodes :=
                            [ {| Name := "widget"; DiskUsage := 42;
                                 CreatedAt := T1; PushedAt := T2;
                                 Stargazers := count stars;
                                 Watchers := count watching;
                                 Forks := count 3;
                                 IssuesOpen := count 5;
                                 IssuesClosed := count 7;
                                 PullRequestsOpen := count prOpen;
                                 PullRequestsClosed := count prClosed;
                                 PullRequestsMerged := count prMerged |} ] |} |};
                RateLimit := rl |}) ->
  let c := NewOrganizationCollector ["acme"] in
  let first5 :=
    [ gauge (created c) (float64 (time.Unix (Time T1))) ["acme"; "widget"];
      gauge (diskUsage c) (float64 42) ["acme"; "widget"];
      gauge (forks c) (float64 3) ["acme"; "widget"];
      gauge (issues c) (float64 5) ["acme"; "widget"; "open"];
      gauge (issues c) (float64 7) ["acme"; "widget"; "closed"] ] in
  exists (w' : World Remote) (others : list prometheus.Metric),
    Collect remoteQuery c w = Done tt w'
    /\ metricCh w' = metricCh w ++ first5 ++ others
    /\ map (fun m => (prometheus.fqName (prometheus.desc m),
                      combine (prometheus.variableLabels (prometheus.desc m))
                              (prometheus.labelValues m)))
           first5
       = [ ("github_repo_created", [("owner", "acme"); ("name", "widget")]);
           ("github_repo_disk_usage_bytes",
            [("owner", "acme"); ("name", "widget")]);
           ("github_repo_forks", [("owner", "acme"); ("name", "widget")]);
           ("github_repo_issues",
            [("owner", "acme"); ("name", "widget"); ("state", "open")]);
           ("github_repo_issues",
            [("owner", "acme"); ("name", "widget"); ("state", "closed")]) ]
    /\ map (fun m => float64_int (prometheus.val m)) (tl first5)
       = [Some 42; Some 3; Some 5; Some 7]
    /\ time.Unix (Time T1) = int64 (time.sec (Time T1) - 62135596800)
    /\ (Z.land (time.wall (Time T1)) time.hasMonotonic = 0 ->
        - 2 ^ 53 < time.ext (Time T1) - 62135596800 < 2 ^ 53 ->
        map (fun m => float64_int (prometheus.val m)) first5
        = [Some (time.ext (Time T1) - 62135596800);
           Some 42; Some 3; Some 5; Some 7]).
Proof.
  intros Hq c first5.
  unfold c at 1.
  rewrite (Collect_ok remoteQuery (NewOrganizationCollector_wellFormed ["acme"])).
  cbv zeta. change (organizations (NewOrganizationCollector ["acme"]))
    with ["acme"].
  cbn [observed asked remoteAfter]. rewrite Hq.
  eexists; eexists. split; [reflexivity|].
  split; [|split; [reflexivity | split; [vm_compute; reflexivity|]]].
  2:{ split; [apply Unix_internal|].
      intros Hwall Hrange. unfold first5.
      cbn [map gauge prometheus.val].
      rewrite (@Unix_wall_clock T1 Hwall) by lia.
      rewrite float64_exact by lia. reflexivity. }
  cbn [metricCh]. f_equal.
  unfold cycleMetrics. cbn [successes flat_map]. unfold orgMetrics.
  cbn [Organization Repositories Nodes flat_map]. rewrite app_nil_r.
  unfold repoMetrics, first5. cbn - [float64 NewOrganizationCollector].
  reflexivity.
Qed.

(** C3, run against the scripted remote: [T1] is the instant Go holds as
    63635596800 seconds from year 1, that is 1500000000 seconds from
    1970. *)
Lemma Collect_acme_widget_witness :
  exists (w' : World (list (string + organizationQuery)))
         (others : list prometheus.Metric),
    Collect scriptedQuery (NewOrganizationCollector ["acme"])
            (world0 [inr acme]) = Done tt w'
    /\ map (fun m => float64_int (prometheus.val m)) (firstn 5 (metricCh w'))
       = [Some 1500000000; Some 42; Some 3; Some 5; Some 7]
    /\ firstn 5 (metricCh w')
       = [ gauge (created (NewOrganizationCollector ["acme"]))
                 (float64 1500000000) ["acme"; "widget"];
           gauge (diskUsage (NewOrganizationCollector ["acme"]))
                 (float64 42) ["acme"; "widget"];
           gauge (forks (NewOrganizationCollector ["acme"]))
                 (float64 3) ["acme"; "widget"];
           gauge (issues (NewOrganizationCollector ["acme"]))
                 (float64 5) ["acme"; "widget"; "open"];
           gauge (issues (NewOrganizationCollector ["acme"]))
                 (float64 7) ["acme"; "widget"; "closed"] ]
    /\ List.length others = 9%nat.
Proof.
  destruct (@Collect_acme_widget
              _ scriptedQuery (world0 [inr acme]) []
              {| Time := {| time.wall := 0; time.ext := 63635596800 |} |}
              {| Time := {| time.wall := 0; time.ext := 63645596800 |} |}
              11 13 1 2 4
              {| Limit := 5000; Remaining := 4999;
                 ResetAt :=
                   {| Time := {| time.wall := 0;
                                 time.ext := 63645600400 |} |} |}
              eq_refl)
    as (w' & others & Hrun & Hch & _ & _ & _ & Hdecoded).
  exists w', others. split; [exact Hrun|].
  split; [rewrite Hch; exact (Hdecoded eq_refl (conj eq_refl eq_refl))|].
  assert (Hw : w' = match Collect scriptedQuery
                            (NewOrganizationCollector ["acme"])
                            (world0 [inr acme]) with
                    | Done _ x => x
                    | Panic _ x => x
                    end) by (now rewrite Hrun).
  split.
  - rewrite Hch. reflexivity.
  - apply (f_equal (@List.length _)) in Hch.
    rewrite Hw in Hch. vm_compute in Hch. injection Hch as Hch.
    symmetry. exact Hch.
Defined.

(** C4. [Describe] sends the eleven descriptors built at construction, in
    the order created, disk usage, forks, issues, pull requests, pushed,
    stargazers, watchers, rate-limit limit, remaining, reset. It touches
    nothing else: no query is made and the remote is left as it was. This
    holds in every world, so before any [Collect] as well, and a second call
    sends the same descriptors in the same order again. *)
Theorem Describe_fixed_descriptors
        (Remote : Type) (orgs : list string) (w : World Remote) :
  let c := NewOrganizationCollector orgs in
  let ds := [ created c; diskUsage c; forks c; issues c; pullRequests c;
              pushed c; stargazers c; watchers c;
              rateLimitDesc c; rateLimitRemaining c; rateLimitReset c ] in
  Describe c w
  = Done tt {| remote := remote w;
               metricCh := metricCh w;
               descCh := descCh w ++ ds;
               logged := logged w;
               queried := queried w |}
  /\ bind (Describe c) (fun _ => Describe c) w
     = Done tt {| remote := remote w;
                  metricCh := metricCh w;
                  descCh := descCh w ++ ds ++ ds;
                  logged := logged w;
                  queried := queried w |}
  /\ map prometheus.fqName ds
     = [ "github_repo_created"; "github_repo_disk_usage_bytes";
         "github_repo_forks"; "github_repo_issues";
         "github_repo_pull_requests"; "github_repo_pushed";
         "github_repo_stargazers"; "github_repo_watchers";
         "github_rate_limit_limit"; "github_rate_limit_remaining";
         "github_rate_limit_reset_seconds" ].
Proof.
  intros c ds.
  assert (Hnames : map prometheus.fqName ds
                   = map prometheus.fqName
                         (descriptors (NewOrganizationCollector orgs)))
    by reflexivity.
  rewrite NewOrganizationCollector_descriptors in Hnames.
  split; [|split; [|exact Hnames]]; clear Hnames;
    change ds with (descriptors c); clearbody c; clear ds.
  - apply Describe_ok.
  - unfold bind. rewrite !Describe_ok.
    cbn [remote metricCh descCh logged queried].
    now rewrite <- app_assoc.
Qed.

(** C5. In every cycle, whatever the remote answers, the value of each
    emitted sample is the [float64] conversion of the raw integer of its
    field: [Unix()] seconds for created, pushed and the rate-limit reset,
    the count itself for every other field; nothing is multiplied, divided
    or added. Every [int32] is a number binary64 holds exactly. [Unix()]
    is the instant's internal seconds less the 62135596800 seconds from
    year 1 to 1970, in [int64]. When the answers
    are as the decoder builds them ([int32] counts, wall-clock instants
    less than 2^53 seconds from 1970) every sample stands for exactly the
    count, or the seconds from 1970, of its field. *)
Theorem Collect_values_unscaled
        (Remote : Type)
        (remoteQuery : Remote -> string -> Remote * (string + organizationQuery))
        (orgs : list string) (w : World Remote) :
  exists (w' : World Remote) (out : list prometheus.Metric),
    Collect remoteQuery (NewOrganizationCollector orgs) w = Done tt w'
    /\ metricCh w' = metricCh w ++ out
    /\ map prometheus.val out
       = map float64
             (flat_map
                (fun q => flat_map repoIntegers
                                   (Nodes (Repositories (Organization q))))
                (successes (observed remoteQuery (remote w) orgs))
              ++ match exitOf zeroRateLimit
                              (observed remoteQuery (remote w) orgs) with
                 | FellThrough rl => rateLimitIntegers rl
                 | Returned => []
                 end)
    /\ (forall n : Z, float64_int (float64 (int32 n)) = Some (int32 n))
    /\ (forall t : time.Time,
           time.Unix t = int64 (time.sec t - 62135596800))
    /\ (forallb decodedAnswer
                (successes (observed remoteQuery (remote w) orgs)) = true ->
        map (fun m => float64_int (prometheus.val m)) out
        = map Some
              (flat_map
                 (fun q =>
                    flat_map
                      (fun repo =>
                         [ time.ext (Time (CreatedAt repo)) - 62135596800;
                           DiskUsage repo;
                           TotalCount (Forks repo);
                           TotalCount (IssuesOpen repo);
                           TotalCount (IssuesClosed repo);
                           TotalCount (PullRequestsOpen repo);
                           TotalCount (PullRequestsClosed repo);
                           TotalCount (PullRequestsMerged repo);
                           time.ext (Time (PushedAt repo)) - 62135596800;
                           TotalCount (Stargazers repo);
                           TotalCount (Watchers repo) ])
                      (Nodes (Repositories (Organization q))))
                 (successes (observed remoteQuery (remote w) orgs))
               ++ match exitOf zeroRateLimit
                               (observed remoteQuery (remote w) orgs) with
                  | FellThrough rl =>
                      [ Limit rl; Remaining rl;
                        time.ext (Time (ResetAt rl)) - 62135596800 ]
                  | Returned => []
                  end)).
Proof.
  rewrite (Collect_ok remoteQuery (NewOrganizationCollector_wellFormed orgs)).
  cbv zeta. change (organizations (NewOrganizationCollector orgs)) with orgs.
  eexists; eexists. split; [reflexivity|]. split; [reflexivity|].
  split; [|split; [|split]].
  - unfold cycleMetrics. rewrite !map_app. f_equal.
    + rewrite !map_flat_map. apply flat_map_ext. intros q.
      unfold orgMetrics. rewrite !map_flat_map. apply flat_map_ext.
      intros repo. reflexivity.
    + destruct (exitOf _ _); reflexivity.
  - intros n. apply float64_exact.
    pose proof (int32_range n). lia.
  - exact Unix_internal.
  - intros Hdec. unfold cycleMetrics. rewrite !map_app.
    rewrite (orgMetrics_decoded _ _ Hdec). f_equal.
    unfold exitOf.
    destruct (failures (observed remoteQuery (remote w) orgs));
      [|reflexivity].
    apply decodedRateLimit_exact.
    apply decodedRateLimit_last; [reflexivity | exact Hdec].
Qed.

(** C5, run: "acme" answers; the fourteen samples stand for the numbers of
    the answer, the three instants as seconds from 1970. *)
Lemma Collect_values_unscaled_witness :
  exists (w' : World (list (string + organizationQuery)))
         (out : list prometheus.Metric),
    Collect scriptedQuery (NewOrganizationCollector ["acme"])
            (world0 [inr acme]) = Done tt w'
    /\ metricCh w' = out
    /\ map (fun m => float64_int (prometheus.val m)) out
       = [ Some 1500000000; Some 42; Some 3; Some 5; Some 7;
           Some 1; Some 2; Some 4; Some 1510000000; Some 11; Some 13;
           Some 5000; Some 4999; Some 1510003600 ].
Proof.
  destruct (@Collect_values_unscaled
              _ scriptedQuery ["acme"] (world0 [inr acme]))
    as (w' & out & Hrun & Hch & _ & _ & _ & Hdecoded).
  exists w', out. split; [exact Hrun|]. split; [exact Hch|].
  exact (Hdecoded eq_refl).
Defined.

(** C6. In every cycle, whatever the remote answers, [Collect] completes
    without a panic and each sample it emits carries as many label values
    as its descriptor declares label names; the descriptors declare two
    names for created, disk usage, forks, pushed, stargazers and watchers,
    three for issues and pull requests, none for the rate-limit gauges. *)
Theorem Collect_label_arity
        (Remote : Type)
        (remoteQuery : Remote -> string -> Remote * (string + organizationQuery))
        (orgs : list string) (w : World Remote) :
  exists (w' : World Remote) (out : list prometheus.Metric),
    Collect remoteQuery (NewOrganizationCollector orgs) w = Done tt w'
    /\ metricCh w' = metricCh w ++ out
    /\ Forall (fun m => List.length (prometheus.labelValues m)
                        = List.length (prometheus.variableLabels
                                         (prometheus.desc m))) out
    /\ (let c := NewOrganizationCollector orgs in
        map (fun d => List.length (prometheus.variableLabels d))
            [created c; diskUsage c; forks c; pushed c; stargazers c;
             watchers c]
        = [2; 2; 2; 2; 2; 2]%nat
        /\ map (fun d => List.length (prometheus.variableLabels d))
               [issues c; pullRequests c]
           = [3; 3]%nat
        /\ map (fun d => List.length (prometheus.variableLabels d))
               [rateLimitDesc c; rateLimitRemaining c; rateLimitReset c]
           = [0; 0; 0]%nat).
Proof.
  rewrite (Collect_ok remoteQuery (NewOrganizationCollector_wellFormed orgs)).
  cbv zeta. eexists; eexists.
  split; [reflexivity|]. split; [reflexivity|]. split.
  - apply cycleMetrics_arity.
  - repeat split.
Qed.

(** C7. When all N >= 1 organizations answer, the last one with [qN],
    [Collect] emits the repository samples of all of them and then exactly
    three gauges without labels: limit, remaining and reset (in epoch
    seconds) of the rate-limit snapshot of [qN]; the snapshots of the
    earlier answers are gone. Epoch seconds are the reset instant's
    internal seconds less the 62135596800 seconds from year 1 to 1970, in
    [int64]; for a wall-clock reset instant less than 2^53 seconds from
    1970 the gauge stands for exactly [ext - 62135596800]. *)
Theorem Collect_rate_limit_last_wins
        (Remote : Type)
        (remoteQuery : Remote -> string -> Remote * (string + organizationQuery))
        (orgs : list string) (w : World Remote)
        (qs : list organizationQuery) (qN : organizationQuery) :
  observed remoteQuery (remote w) orgs = map inr (qs ++ [qN]) ->
  let c := NewOrganizationCollector orgs in
  exists w' : World Remote,
    Collect remoteQuery c w = Done tt w'
    /\ metricCh w'
       = metricCh w
         ++ flat_map (orgMetrics c) (qs ++ [qN])
         ++ [ gauge (rateLimitDesc c) (float64 (Limit (RateLimit qN))) [];
              gauge (rateLimitRemaining c)
                    (float64 (Remaining (RateLimit qN))) [];
              gauge (rateLimitReset c)
                    (float64 (time.Unix (Time (ResetAt (RateLimit qN))))) [] ]
    /\ List.length (qs ++ [qN]) = List.length orgs
    /\ queried w' = queried w ++ orgs
    /\ logged w' = logged w
    /\ time.Unix (Time (ResetAt (RateLimit qN)))
       = int64 (time.sec (Time (ResetAt (RateLimit qN))) - 62135596800)
    /\ (Z.land (time.wall (Time (ResetAt (RateLimit qN)))) time.hasMonotonic
        = 0 ->
        - 2 ^ 53 < time.ext (Time (ResetAt (RateLimit qN))) - 62135596800
        < 2 ^ 53 ->
        float64_int (float64 (time.Unix (Time (ResetAt (RateLimit qN)))))
        = Some (time.ext (Time (ResetAt (RateLimit qN))) - 62135596800)).
Proof.
  intros Hobs c. unfold c.
  rewrite (Collect_ok remoteQuery (NewOrganizationCollector_wellFormed orgs)).
  cbv zeta. change (organizations (NewOrganizationCollector orgs)) with orgs.
  pose proof (observed_all remoteQuery _ _ _ Hobs) as Hlen.
  rewrite asked_firstn, Hobs, length_map, Hlen, firstn_all.
  eexists. split; [reflexivity|].
  cbn [metricCh logged queried]. unfold cycleMetrics, exitOf.
  rewrite successes_inr, failures_inr, lastRateLimit_snoc.
  cbn [map]. rewrite app_nil_r.
  do 4 (split; [reflexivity|]). split; [apply Unix_internal|].
  intros Hwall Hrange.
  rewrite (@Unix_wall_clock (ResetAt (RateLimit qN)) Hwall) by lia.
  apply float64_exact. lia.
Qed.

(** C7, run: two organizations answer; the gauges are those of the second
    answer. *)
Lemma Collect_rate_limit_last_wins_witness :
  exists w' : World (list (string + organizationQuery)),
    Collect scriptedQuery (NewOrganizationCollector ["acme"; "globex"])
            (world0 [inr acme; inr globex]) = Done tt w'
    /\ map (fun m => float64_int (prometheus.val m))
           (skipn 33 (metricCh w'))
       = [Some 5000; Some 4998; Some 1510003600]
    /\ time.ext (Time (ResetAt (RateLimit globex))) = 63645600400
    /\ float64_int
         (float64 (time.Unix (Time (ResetAt (RateLimit globex)))))
       = Some 1510003600.
Proof.
  destruct (@Collect_rate_limit_last_wins
              _ scriptedQuery ["acme"; "globex"]
              (world0 [inr acme; inr globex]) [acme] globex eq_refl)
    as (w' & Hrun & Hch & _ & _ & _ & _ & Hpin).
  exists w'. split; [exact Hrun|].
  split; [rewrite Hch; vm_compute; reflexivity|].
  split; [reflexivity|].
  exact (Hpin eq_refl (conj eq_refl eq_refl)).
Defined.

(** C8. Two runs of [Collect] for the same organizations, in any two worlds
    (other remotes, channels already holding samples of earlier cycles,
    earlier log records) emit the same samples when they observe the same
    answers: the samples of a cycle are a function of its answers alone,
    and a timestamp sample's value is a function of the instant. *)
Theorem Collect_depends_on_answers_only
        (Remote1 Remote2 : Type)
        (remoteQuery1 :
           Remote1 -> string -> Remote1 * (string + organizationQuery))
        (remoteQuery2 :
           Remote2 -> string -> Remote2 * (string + organizationQuery))
        (orgs : list string) (w1 : World Remote1) (w2 : World Remote2) :
  observed remoteQuery1 (remote w1) orgs
  = observed remoteQuery2 (remote w2) orgs ->
  exists (out : list prometheus.Metric)
         (w1' : World Remote1) (w2' : World Remote2),
    Collect remoteQuery1 (NewOrganizationCollector orgs) w1 = Done tt w1'
    /\ Collect remoteQuery2 (NewOrganizationCollector orgs) w2 = Done tt w2'
    /\ metricCh w1' = metricCh w1 ++ out
    /\ metricCh w2' = metricCh w2 ++ out
    /\ out = cycleMetrics (NewOrganizationCollector orgs)
                          (observed remoteQuery1 (remote w1) orgs)
    /\ (forall t1 t2 : DateTime,
           Time t1 = Time t2 ->
           float64 (DateTime_Unix t1) = float64 (DateTime_Unix t2)).
Proof.
  intros Hobs.
  rewrite (Collect_ok remoteQuery1 (NewOrganizationCollector_wellFormed orgs)).
  rewrite (Collect_ok remoteQuery2 (NewOrganizationCollector_wellFormed orgs)).
  cbv zeta. change (organizations (NewOrganizationCollector orgs)) with orgs.
  rewrite <- Hobs.
  eexists; eexists; eexists.
  split; [reflexivity|]. split; [reflexivity|].
  cbn [metricCh]. repeat split.
  intros t1 t2 Ht. unfold DateTime_Unix. now rewrite Ht.
Qed.

(** C8, run: a first cycle in a fresh world, and a second one after an
    earlier cycle that heard a different answer; both hear "acme" answer
    the same and emit the same fourteen samples. *)
Lemma Collect_depends_on_answers_only_witness :
  exists (out : list prometheus.Metric)
         (w1' w2' : World (list (string + organizationQuery))),
    Collect scriptedQuery (NewOrganizationCollector ["acme"])
            (world0 [inr acme]) = Done tt w1'
    /\ Collect scriptedQuery (NewOrganizationCollector ["acme"])
               (worldOf (Collect scriptedQuery
                                 (NewOrganizationCollector ["acme"])
                                 (world0 [inr globex; inr acme])))
       = Done tt w2'
    /\ metricCh w1' = out
    /\ skipn 25 (metricCh w2') = out
    /\ List.length out = 14%nat.
Proof.
  destruct (@Collect_depends_on_answers_only
              _ _ scriptedQuery scriptedQuery ["acme"]
              (world0 [inr acme])
              (worldOf (Collect scriptedQuery
                                (NewOrganizationCollector ["acme"])
                                (world0 [inr globex; inr acme])))
              eq_refl)
    as (out & w1' & w2' & Hrun1 & Hrun2 & Hch1 & Hch2 & Hout & _).
  exists out, w1', w2'.
  split; [exact Hrun1|]. split; [exact Hrun2|].
  rewrite Hch1, Hch2, Hout. repeat split.
Defined.

(** C9. With no organization configured, [Collect] makes no query, emits no
    repository sample and still emits the three rate-limit samples, from
    the zero snapshot: limit 0, remaining 0, and reset at the zero
    instant's [Unix()] value, -62135596800 seconds. *)
Theorem Collect_no_organizations
        (Remote : Type)
        (remoteQuery : Remote -> string -> Remote * (string + organizationQuery))
        (w : World Remote) :
  let c := NewOrganizationCollector [] in
  Collect remoteQuery c w
  = Done tt
         {| remote := remote w;
            metricCh := metricCh w
                        ++ [ gauge (rateLimitDesc c) (float64 0) [];
                             gauge (rateLimitRemaining c) (float64 0) [];
                             gauge (rateLimitReset c)
                                   (float64 (time.Unix time.zero)) [] ];
            descCh := descCh w;
            logged := logged w;
            queried := queried w |}
  /\ float64 0 = S754_zero false
  /\ time.Unix time.zero = -62135596800
  /\ float64_int (float64 (time.Unix time.zero)) = Some (-62135596800).
Proof.
  intros c. split.
  - unfold c.
    rewrite (Collect_ok remoteQuery (NewOrganizationCollector_wellFormed [])).
    cbv zeta. change (organizations (NewOrganizationCollector [])) with
      (@nil string).
    cbn [observed asked remoteAfter successes failures map].
    rewrite !app_nil_r. reflexivity.
  - repeat split.
Qed.

(** C10. The descriptors of pushed, stargazers and watchers are built with
    the label names "onwer", "name"; those of created, disk usage and
    forks with "owner", "name". The first label name therefore differs
    between the two groups. *)
Theorem NewOrganizationCollector_owner_label_not_uniform
        (orgs : list string) :
  let c := NewOrganizationCollector orgs in
  map prometheus.variableLabels [pushed c; stargazers c; watchers c]
  = [["onwer"; "name"]; ["onwer"; "name"]; ["onwer"; "name"]]
  /\ map prometheus.variableLabels [created c; diskUsage c; forks c]
     = [["owner"; "name"]; ["owner"; "name"]; ["owner"; "name"]]
  /\ hd_error (prometheus.variableLabels (pushed c))
     <> hd_error (prometheus.variableLabels (created c)).
Proof.
  intros c. split; [reflexivity | split; [reflexivity|]].
  vm_compute. discriminate.
Qed.

(** ** Further properties of the code *)

(** *** The shape of what a cycle observes *)

Lemma observed_shape (Remote : Type)
      (remoteQuery : Remote -> string -> Remote * (string + organizationQuery))
      (r : Remote) (orgs : list string) :
  (exists qs, observed remoteQuery r orgs = map inr qs)
  \/ (exists qs e, observed remoteQuery r orgs = map inr qs ++ [inl e]).
Proof.
  revert r. induction orgs as [|o rest IH]; intros r; simpl.
  - left. now exists [].
  - destruct (remoteQuery r o) as [r' [e|q]].
    + right. now exists [], e.
    + destruct (IH r') as [[qs H] | [qs [e H]]]; rewrite H.
      * left. now exists (q :: qs).
      * right. now exists (q :: qs), e.
Qed.

Lemma observed_nonempty (Remote : Type)
      (remoteQuery : Remote -> string -> Remote * (string + organizationQuery))
      (r : Remote) (o : string) (rest : list string) :
  observed remoteQuery r (o :: rest) <> [].
Proof.
  simpl. destruct (remoteQuery r o) as [r' [e|q]]; discriminate.
Qed.

Lemma length_flat_map_const {A B : Type} (f : A -> list B) (k : nat)
      (l : list A) :
  (forall x, List.length (f x) = k) ->
  List.length (flat_map f l) = (k * List.length l)%nat.
Proof.
  intros Hf. induction l as [|x l IH]; simpl.
  - lia.
  - rewrite length_app, Hf, IH. lia.
Qed.

Lemma existsb_flat_map_false {A B : Type} (p : B -> bool) (f : A -> list B)
      (l : list A) :
  (forall x, existsb p (f x) = false) ->
  existsb p (flat_map f l) = false.
Proof.
  intros Hf. induction l as [|x l IH]; simpl; [reflexivity|].
  now rewrite existsb_app, Hf, IH.
Qed.

(** *** The samples of a cycle, for any collector *)

Lemma repoMetrics_described (c : OrganizationCollector)
      (q : organizationQuery) (repo : repositoryNode) :
  Forall (fun m => In (prometheus.desc m) (descriptors c)
                   /\ prometheus.valType m = prometheus.GaugeValue)
         (repoMetrics c q repo).
Proof.
  unfold repoMetrics, descriptors.
  repeat (constructor; [split; [simpl; tauto | reflexivity]|]).
  constructor.
Qed.

Lemma cycleMetrics_described (c : OrganizationCollector)
      (obs : list (string + organizationQuery)) :
  Forall (fun m => In (prometheus.desc m) (descriptors c)
                   /\ prometheus.valType m = prometheus.GaugeValue)
         (cycleMetrics c obs).
Proof.
  unfold cycleMetrics. apply Forall_app. split.
  - apply Forall_flat_map, Forall_forall. intros q _.
    apply Forall_flat_map, Forall_forall. intros repo _.
    apply repoMetrics_described.
  - destruct (exitOf _ _); [|constructor].
    unfold rateLimitMetrics, descriptors.
    repeat (constructor; [split; [simpl; tauto | reflexivity]|]).
    constructor.
Qed.

Lemma orgMetrics_length (c : OrganizationCollector) (qs : list organizationQuery) :
  List.length (flat_map (orgMetrics c) qs)
  = (11 * List.length (allNodes qs))%nat.
Proof.
  unfold allNodes. induction qs as [|q qs IH]; simpl; [reflexivity|].
  rewrite !length_app, IH. unfold orgMetrics.
  rewrite (length_flat_map_const (repoMetrics c q) (k:=11)) by reflexivity.
  lia.
Qed.

Lemma orgMetrics_no_rate_limit (orgs : list string)
      (qs : list organizationQuery) :
  existsb rateLimitSample
          (flat_map (orgMetrics (NewOrganizationCollector orgs)) qs) = false.
Proof.
  apply existsb_flat_map_false. intros q.
  apply existsb_flat_map_false. intros repo. reflexivity.
Qed.

(** X1. Whatever the remote answers, every sample [Collect] emits is a
    gauge whose descriptor is one of those [Describe] sends; [Collect]
    sends no descriptor and [Describe] no sample. *)
Theorem Collect_within_Describe
        (Remote : Type)
        (remoteQuery : Remote -> string -> Remote * (string + organizationQuery))
        (orgs : list string) (w w0 : World Remote) :
  exists (ds : list prometheus.Desc) (out : list prometheus.Metric)
         (w' w0' : World Remote),
    Describe (NewOrganizationCollector orgs) w0 = Done tt w0'
    /\ descCh w0' = descCh w0 ++ ds
    /\ metricCh w0' = metricCh w0
    /\ Collect remoteQuery (NewOrganizationCollector orgs) w = Done tt w'
    /\ metricCh w' = metricCh w ++ out
    /\ descCh w' = descCh w
    /\ Forall (fun m => In (prometheus.desc m) ds
                        /\ prometheus.valType m = prometheus.GaugeValue) out.
Proof.
  rewrite Describe_ok.
  rewrite (Collect_ok remoteQuery (NewOrganizationCollector_wellFormed orgs)).
  cbv zeta. do 4 eexists.
  split; [reflexivity|]. split; [reflexivity|]. split; [reflexivity|].
  split; [reflexivity|]. split; [reflexivity|]. split; [reflexivity|].
  apply cycleMetrics_described.
Qed.

(** X2. A cycle emits eleven samples for each repository node of the
    answers it received, and three more exactly when no query failed. *)
Theorem Collect_sample_count
        (Remote : Type)
        (remoteQuery : Remote -> string -> Remote * (string + organizationQuery))
        (orgs : list string) (w : World Remote) :
  exists (w' : World Remote) (out : list prometheus.Metric),
    Collect remoteQuery (NewOrganizationCollector orgs) w = Done tt w'
    /\ metricCh w' = metricCh w ++ out
    /\ List.length out
       = (11 * List.length
                 (allNodes (successes (observed remoteQuery (remote w) orgs)))
          + match failures (observed remoteQuery (remote w) orgs) with
            | [] => 3
            | _ :: _ => 0
            end)%nat.
Proof.
  rewrite (Collect_ok remoteQuery (NewOrganizationCollector_wellFormed orgs)).
  cbv zeta. change (organizations (NewOrganizationCollector orgs)) with orgs.
  do 2 eexists. split; [reflexivity|]. split; [reflexivity|].
  unfold cycleMetrics, exitOf. rewrite length_app, orgMetrics_length.
  destruct (failures _); reflexivity.
Qed.

(** X3. In every cycle one of two things happens. Either nothing is
    logged, every configured organization is queried, in order, and the
    emitted samples end with the three rate-limit gauges, the only
    rate-limit samples among them; or exactly one warning is logged, the
    organizations queried are a non-empty prefix of those configured, and
    no rate-limit sample is emitted. *)
Theorem Collect_rate_limit_or_warning
        (Remote : Type)
        (remoteQuery : Remote -> string -> Remote * (string + organizationQuery))
        (orgs : list string) (w : World Remote) :
  exists (w' : World Remote) (out : list prometheus.Metric),
    Collect remoteQuery (NewOrganizationCollector orgs) w = Done tt w'
    /\ metricCh w' = metricCh w ++ out
    /\ ((logged w' = logged w
         /\ queried w' = queried w ++ orgs
         /\ exists body three : list prometheus.Metric,
             out = body ++ three
             /\ List.length three = 3%nat
             /\ forallb rateLimitSample three = true
             /\ existsb rateLimitSample body = false)
        \/ (exists (e : string) (k : nat),
               logged w'
               = logged w
                 ++ [{| level := WarnLevel;
                        keyvals :=
                          [("msg",
                            "failed to execute organization query successfully");
                           ("err", e)] |}]
               /\ (1 <= k <= List.length orgs)%nat
               /\ queried w' = queried w ++ firstn k orgs
               /\ existsb rateLimitSample out = false)).
Proof.
  rewrite (Collect_ok remoteQuery (NewOrganizationCollector_wellFormed orgs)).
  cbv zeta. change (organizations (NewOrganizationCollector orgs)) with orgs.
  do 2 eexists. split; [reflexivity|]. split; [reflexivity|].
  cbn [logged queried]. rewrite asked_firstn.
  pose proof (observed_length remoteQuery (remote w) orgs) as Hle.
  destruct (observed_shape remoteQuery (remote w) orgs)
    as [[qs H] | [qs [e H]]].
  - left. pose proof (observed_all remoteQuery _ _ _ H) as Hlen.
    rewrite H, length_map, Hlen, firstn_all.
    unfold cycleMetrics, exitOf. rewrite successes_inr, failures_inr.
    cbn [map]. rewrite app_nil_r. split; [reflexivity|].
    split; [reflexivity|].
    eexists; eexists. split; [reflexivity|].
    split; [reflexivity|]. split; [reflexivity|].
    apply orgMetrics_no_rate_limit.
  - right. exists e, (S (List.length qs)).
    rewrite H in Hle |- *. rewrite length_app, length_map in Hle |- *.
    simpl in Hle. rewrite Nat.add_1_r.
    unfold cycleMetrics, exitOf.
    rewrite successes_app, failures_app, successes_inr, failures_inr.
    cbn [successes failures app map]. rewrite !app_nil_r.
    split; [reflexivity|]. split; [lia|]. split; [reflexivity|].
    apply orgMetrics_no_rate_limit.
Qed.

(** *** Cycles over a list of organizations in two parts *)

Lemma observed_app (Remote : Type)
      (remoteQuery : Remote -> string -> Remote * (string + organizationQuery))
      (a b : list string) (r : Remote) (qs : list organizationQuery) :
  observed remoteQuery r a = map inr qs ->
  observed remoteQuery r (a ++ b)
  = map inr qs ++ observed remoteQuery (remoteAfter remoteQuery r a) b
  /\ asked remoteQuery r (a ++ b)
     = a ++ asked remoteQuery (remoteAfter remoteQuery r a) b
  /\ remoteAfter remoteQuery r (a ++ b)
     = remoteAfter remoteQuery (remoteAfter remoteQuery r a) b.
Proof.
  revert r qs. induction a as [|o a IH]; intros r qs; simpl.
  - destruct qs; [|discriminate]. intros _. repeat split.
  - destruct (remoteQuery r o) as [r' [e|q]]; destruct qs as [|q' qs];
      simpl; try discriminate.
    intros H. injection H as <- H.
    destruct (IH r' qs H) as (H1 & H2 & H3).
    rewrite H1, H2, H3. repeat split.
Qed.

Lemma lastRateLimit_nonempty (x y : rateLimit) (qs : list organizationQuery) :
  qs <> [] -> lastRateLimit x qs = lastRateLimit y qs.
Proof. destruct qs as [|q qs]; [congruence | reflexivity]. Qed.

Lemma exitOf_after_successes (qs : list organizationQuery)
      (obs : list (string + organizationQuery)) :
  obs <> [] ->
  exitOf zeroRateLimit (map inr qs ++ obs) = exitOf zeroRateLimit obs.
Proof.
  intros Hne. unfold exitOf.
  rewrite failures_app, failures_inr, successes_app, successes_inr.
  cbn [app]. destruct (failures obs) as [|e es] eqn:Hf; [|reflexivity].
  f_equal. unfold lastRateLimit at 1. rewrite fold_left_app.
  apply lastRateLimit_nonempty.
  destruct obs as [|[e|q] obs]; [congruence | discriminate | discriminate].
Qed.

Lemma cycleMetrics_any_orgs (o1 o2 : list string)
      (obs : list (string + organizationQuery)) :
  cycleMetrics (NewOrganizationCollector o1) obs
  = cycleMetrics (NewOrganizationCollector o2) obs.
Proof. reflexivity. Qed.

(** X4. When every organization of [a] answers, a cycle over [a ++ b] with
    [b] not empty is the cycle over [b] run in the world the queries of [a]
    leave behind: their repository samples sent, their rate-limit
    snapshots forgotten. *)
Theorem Collect_app
        (Remote : Type)
        (remoteQuery : Remote -> string -> Remote * (string + organizationQuery))
        (a b : list string) (w : World Remote)
        (qs : list organizationQuery) :
  observed remoteQuery (remote w) a = map inr qs ->
  b <> [] ->
  Collect remoteQuery (NewOrganizationCollector (a ++ b)) w
  = Collect remoteQuery (NewOrganizationCollector b)
            {| remote := remoteAfter remoteQuery (remote w) a;
               metricCh := metricCh w
                           ++ flat_map
                                (orgMetrics (NewOrganizationCollector a)) qs;
               descCh := descCh w;
               logged := logged w;
               queried := queried w ++ a |}.
Proof.
  intros Ha Hb.
  rewrite (Collect_ok remoteQuery
             (NewOrganizationCollector_wellFormed (a ++ b))).
  rewrite (Collect_ok remoteQuery (NewOrganizationCollector_wellFormed b)).
  cbv zeta.
  change (organizations (NewOrganizationCollector (a ++ b))) with (a ++ b).
  change (organizations (NewOrganizationCollector b)) with b.
  cbn [remote metricCh descCh logged queried].
  destruct (@observed_app _ remoteQuery a b (remote w) qs Ha)
    as (H1 & H2 & H3).
  rewrite H1, H2, H3.
  assert (Hobs : observed remoteQuery (remoteAfter remoteQuery (remote w) a) b
                 <> []).
  { destruct b as [|o b]; [congruence | apply observed_nonempty]. }
  f_equal. f_equal.
  - rewrite (cycleMetrics_any_orgs (a ++ b) b).
    unfold cycleMetrics at 1.
    rewrite (exitOf_after_successes qs Hobs).
    rewrite successes_app, successes_inr, flat_map_app.
    unfold cycleMetrics. rewrite <- !app_assoc. reflexivity.
  - rewrite failures_app, failures_inr. reflexivity.
  - now rewrite app_assoc.
Qed.

(** X4, run: ["acme"] answers, then ["globex"]. *)
Lemma Collect_app_witness :
  Collect scriptedQuery (NewOrganizationCollector (["acme"] ++ ["globex"]))
          (world0 [inr acme; inr globex])
  = Collect scriptedQuery (NewOrganizationCollector ["globex"])
            {| remote := [inr globex];
               metricCh := orgMetrics (NewOrganizationCollector ["acme"]) acme;
               descCh := [];
               logged := [];
               queried := ["acme"] |}.
Proof.
  exact (@Collect_app _ scriptedQuery ["acme"] ["globex"]
           (world0 [inr acme; inr globex]) [acme] eq_refl
           ltac:(discriminate)).
Defined.

(** *** Repeated series *)

Lemma NoDup_app_disjoint {A : Type} (x : A) (l1 l2 : list A) :
  NoDup (l1 ++ l2) -> In x l1 -> In x l2 -> False.
Proof.
  induction l1 as [|a l1 IH]; simpl; intros Hnd H1 H2; [assumption|].
  inversion Hnd as [|? ? Hnotin Hnd']; subst.
  destruct H1 as [->|H1].
  - apply Hnotin, in_or_app. now right.
  - now apply IH.
Qed.

Lemma created_series_in (orgs : list string) (q : organizationQuery)
      (repo : repositoryNode) :
  In repo (Nodes (Repositories (Organization q))) ->
  In ("github_repo_created", [Login (Organization q); Name repo])
     (map seriesKey (orgMetrics (NewOrganizationCollector orgs) q)).
Proof.
  intros Hin. apply in_map_iff.
  exists (gauge (created (NewOrganizationCollector orgs))
                (float64 (DateTime_Unix (CreatedAt repo)))
                [Login (Organization q); Name repo]).
  split; [reflexivity|].
  unfold orgMetrics. apply in_flat_map. exists repo.
  split; [assumption | now left].
Qed.

(** X5. [Collect] removes no duplicates: when two of the answers a cycle
    receives carry the same login and a repository of the same name (the
    same organization configured twice, for one), the emitted samples
    contain the same family and label values more than once, whether or
    not a later query of the cycle fails. *)
Theorem Collect_keeps_duplicates
        (Remote : Type)
        (remoteQuery : Remote -> string -> Remote * (string + organizationQuery))
        (orgs : list string) (w : World Remote)
        (qs1 qs2 qs3 : list organizationQuery) (q q' : organizationQuery)
        (repo repo' : repositoryNode) :
  successes (observed remoteQuery (remote w) orgs)
  = qs1 ++ q :: qs2 ++ q' :: qs3 ->
  Login (Organization q) = Login (Organization q') ->
  In repo (Nodes (Repositories (Organization q))) ->
  In repo' (Nodes (Repositories (Organization q'))) ->
  Name repo = Name repo' ->
  exists (w' : World Remote) (out : list prometheus.Metric),
    Collect remoteQuery (NewOrganizationCollector orgs) w = Done tt w'
    /\ metricCh w' = metricCh w ++ out
    /\ ~ NoDup (map (fun m => (prometheus.fqName (prometheus.desc m),
                               prometheus.labelValues m)) out).
Proof.
  intros Hobs Hlogin Hrepo Hrepo' Hname.
  rewrite (Collect_ok remoteQuery (NewOrganizationCollector_wellFormed orgs)).
  cbv zeta. change (organizations (NewOrganizationCollector orgs)) with orgs.
  do 2 eexists. split; [reflexivity|]. split; [reflexivity|].
  unfold cycleMetrics. rewrite Hobs.
  rewrite flat_map_app. cbn [flat_map]. rewrite flat_map_app. cbn [flat_map].
  rewrite !map_app. intros Hnd.
  apply NoDup_app_remove_r in Hnd.
  apply NoDup_app_remove_l in Hnd.
  set (k := ("github_repo_created", [Login (Organization q); Name repo])).
  apply (@NoDup_app_disjoint _ k _ _ Hnd).
  - apply (created_series_in orgs q repo Hrepo).
  - apply in_or_app. right. apply in_or_app. left.
    unfold k. rewrite Hlogin, Hname.
    apply (created_series_in orgs q' repo' Hrepo').
Qed.

(** X5, run: "acme" is configured twice and answers twice; the third
    organization fails. *)
Lemma Collect_keeps_duplicates_witness :
  exists (w' : World (list (string + organizationQuery)))
         (out : list prometheus.Metric),
    Collect scriptedQuery (NewOrganizationCollector ["acme"; "acme"; "initech"])
            (world0 [inr acme; inr acme; inl "deadline exceeded"])
    = Done tt w'
    /\ metricCh w' = [] ++ out
    /\ ~ NoDup (map (fun m => (prometheus.fqName (prometheus.desc m),
                               prometheus.labelValues m)) out).
Proof.
  exact (@Collect_keeps_duplicates
           _ scriptedQuery ["acme"; "acme"; "initech"]
           (world0 [inr acme; inr acme; inl "deadline exceeded"])
           [] [] [] acme acme widget widget eq_refl eq_refl
           (or_introl eq_refl) (or_introl eq_refl) eq_refl).
Defined.

(** *** Labels and configured names *)

(** X6. The organization strings configured are used for nothing but the
    query: two cycles over different lists of organizations that receive
    the same answers emit the same samples, so the owner label is always
    the login found in the answer. *)
Theorem Collect_ignores_configured_names
        (Remote1 Remote2 : Type)
        (remoteQuery1 :
           Remote1 -> string -> Remote1 * (string + organizationQuery))
        (remoteQuery2 :
           Remote2 -> string -> Remote2 * (string + organizationQuery))
        (orgs1 orgs2 : list string)
        (w1 : World Remote1) (w2 : World Remote2) :
  observed remoteQuery1 (remote w1) orgs1
  = observed remoteQuery2 (remote w2) orgs2 ->
  exists (out : list prometheus.Metric)
         (w1' : World Remote1) (w2' : World Remote2),
    Collect remoteQuery1 (NewOrganizationCollector orgs1) w1 = Done tt w1'
    /\ Collect remoteQuery2 (NewOrganizationCollector orgs2) w2 = Done tt w2'
    /\ metricCh w1' = metricCh w1 ++ out
    /\ metricCh w2' = metricCh w2 ++ out
    /\ queried w1' = queried w1
                     ++ firstn (List.length
                                  (observed remoteQuery1 (remote w1) orgs1))
                               orgs1
    /\ queried w2' = queried w2
                     ++ firstn (List.length
                                  (observed remoteQuery1 (remote w1) orgs1))
                               orgs2.
Proof.
  intros Hobs.
  rewrite (Collect_ok remoteQuery1 (NewOrganizationCollector_wellFormed orgs1)).
  rewrite (Collect_ok remoteQuery2 (NewOrganizationCollector_wellFormed orgs2)).
  cbv zeta.
  change (organizations (NewOrganizationCollector orgs1)) with orgs1.
  change (organizations (NewOrganizationCollector orgs2)) with orgs2.
  rewrite !asked_firstn, <- Hobs.
  do 3 eexists.
  split; [reflexivity|]. split; [reflexivity|].
  cbn [metricCh queried].
  split; [reflexivity|]. split; [|split; reflexivity].
  now rewrite (cycleMetrics_any_orgs orgs2 orgs1).
Qed.

(** X6, run: the organization is configured as "ACME" in one process and
    as "acme" in the other; the remote answers with login "acme". *)
Lemma Collect_ignores_configured_names_witness :
  exists (out : list prometheus.Metric)
         (w1' w2' : World (list (string + organizationQuery))),
    Collect scriptedQuery (NewOrganizationCollector ["ACME"])
            (world0 [inr acme]) = Done tt w1'
    /\ Collect scriptedQuery (NewOrganizationCollector ["acme"])
               (world0 [inr acme]) = Done tt w2'
    /\ metricCh w1' = out
    /\ metricCh w2' = out
    /\ queried w1' = ["ACME"]
    /\ queried w2' = ["acme"].
Proof.
  exact (@Collect_ignores_configured_names
           _ _ scriptedQuery scriptedQuery ["ACME"] ["acme"]
           (world0 [inr acme]) (world0 [inr acme]) eq_refl).
Defined.

(** *** Timestamps *)

(** X7. For an instant that carries no monotonic clock reading (any
    instant decoded from an answer) and lies less than 2^53 seconds from
    the epoch, the value of a created, pushed or reset sample is exactly
    the number of seconds since January 1, 1970: neither [Unix()] wraps
    around nor [float64] rounds. *)
Theorem timestamp_sample_exact (t : DateTime) :
  Z.land (time.wall (Time t)) time.hasMonotonic = 0 ->
  - 2 ^ 53 < time.ext (Time t) - 62135596800 < 2 ^ 53 ->
  DateTime_Unix t = time.ext (Time t) - 62135596800
  /\ float64_int (float64 (DateTime_Unix t))
     = Some (time.ext (Time t) - 62135596800).
Proof.
  intros Hwall Hrange.
  assert (HU : DateTime_Unix t = time.ext (Time t) - 62135596800).
  { unfold DateTime_Unix, time.Unix, time.unixSec, time.sec.
    rewrite Hwall. cbn [Z.eqb].
    change time.internalToUnix with (- 62135596800).
    rewrite int64_small by lia. lia. }
  split; [exact HU|].
  rewrite HU. apply float64_exact. lia.
Qed.

(** X7, run: the last second of the year 9999. *)
Lemma timestamp_sample_exact_witness :
  DateTime_Unix (instant 253402300799) = 253402300799
  /\ float64_int (float64 (DateTime_Unix (instant 253402300799)))
     = Some 253402300799.
Proof.
  exact (@timestamp_sample_exact (instant 253402300799) eq_refl
           (conj eq_refl eq_refl)).
Defined.

(** *** The earlier collector *)

Lemma basic_descriptors (s : string) :
  basic.descriptors (basic.NewOrganizationCollector s)
  = firstn 4 (descriptors (NewOrganizationCollector [])).
Proof. reflexivity. Qed.

Lemma basic_descriptors_sound (s : string) :
  Forall (fun d => prometheus.err d = None)
         (basic.descriptors (basic.NewOrganizationCollector s)).
Proof.
  rewrite basic_descriptors, NewOrganizationCollector_descriptors.
  repeat constructor.
Qed.

Lemma basic_collectRepo_ok (Remote : Type) (s : string)
      (query : basic.organizationQuery) (repo : repositoryNode)
      (w : World Remote) :
  basic.collectRepo (basic.NewOrganizationCollector s) query repo w
  = Done tt (sent w (basic.repoMetrics (basic.NewOrganizationCollector s)
                                       query repo)).
Proof.
  pose proof (basic_descriptors_sound s) as Hd.
  unfold basic.descriptors in Hd.
  inversion Hd as [|? ? H1 Hd1]; subst. inversion Hd1 as [|? ? H2 Hd2]; subst.
  inversion Hd2 as [|? ? H3 Hd3]; subst. inversion Hd3 as [|? ? H4 _]; subst.
  unfold basic.collectRepo.
  do 4 (erewrite bind_Done by (apply emit_ok; [assumption | reflexivity]);
        rewrite ?sent_sent).
  rewrite emit_ok by (assumption || reflexivity).
  rewrite sent_sent. reflexivity.
Qed.

Lemma basic_rangeNodes_ok (Remote : Type) (s : string)
      (query : basic.organizationQuery) (nodes : list repositoryNode)
      (w : World Remote) :
  basic.rangeNodes (basic.NewOrganizationCollector s) query nodes w
  = Done tt (sent w (flat_map
                       (basic.repoMetrics (basic.NewOrganizationCollector s)
                                          query) nodes)).
Proof.
  revert w. induction nodes as [|repo rest IH]; intros w.
  - simpl. now rewrite sent_nil.
  - cbn [basic.rangeNodes flat_map].
    erewrite bind_Done by apply basic_collectRepo_ok.
    rewrite IH, sent_sent. reflexivity.
Qed.

(** The earlier [Collect], in one equation. *)
Lemma basic_Collect_ok (Remote : Type)
      (remoteQuery :
         Remote -> string -> Remote * (string + basic.organizationQuery))
      (s : string) (w : World Remote) :
  basic.Collect remoteQuery (basic.NewOrganizationCollector s) w
  = Done tt
         {| remote := fst (remoteQuery (remote w) s);
            metricCh :=
              metricCh w
              ++ match snd (remoteQuery (remote w) s) with
                 | inr q =>
                     flat_map
                       (basic.repoMetrics (basic.NewOrganizationCollector s) q)
                       (Nodes (Repositories (basic.Organization q)))
                 | inl _ => []
                 end;
            descCh := descCh w;
            logged :=
              logged w
              ++ match snd (remoteQuery (remote w) s) with
                 | inr _ => []
                 | inl e => [queryWarning e]
                 end;
            queried := queried w ++ [s] |}.
Proof.
  unfold basic.Collect. unfold bind at 1. unfold basic.Query.
  change (basic.orgs (basic.NewOrganizationCollector s)) with s.
  destruct (remoteQuery (remote w) s) as [r' [e|q]]; cbn [fst snd].
  - cbn. now rewrite app_nil_r.
  - rewrite basic_rangeNodes_ok. unfold sent.
    cbn [remote metricCh descCh logged queried].
    now rewrite app_nil_r.
Qed.

(** X8. The earlier [Collect] makes exactly one query per cycle, for the
    configured string as it is (a comma-separated list is one name to it).
    When the query succeeds it emits, per repository node in list order,
    created, disk usage, forks, issues open and issues closed, and logs
    nothing; when it fails it emits nothing and logs one warning; it
    returns normally either way. *)
Theorem basic_Collect_cycle
        (Remote : Type)
        (remoteQuery :
           Remote -> string -> Remote * (string + basic.organizationQuery))
        (s : string) (w : World Remote) :
  exists w' : World Remote,
    basic.Collect remoteQuery (basic.NewOrganizationCollector s) w = Done tt w'
    /\ queried w' = queried w ++ [s]
    /\ remote w' = fst (remoteQuery (remote w) s)
    /\ descCh w' = descCh w
    /\ match snd (remoteQuery (remote w) s) with
       | inr q =>
           logged w' = logged w
           /\ metricCh w'
              = metricCh w
                ++ flat_map
                     (fun repo =>
                        let c := basic.NewOrganizationCollector s in
                        let owner := Login (basic.Organization q) in
                        let name := Name repo in
                        [ gauge (basic.created c)
                                (float64 (DateTime_Unix (CreatedAt repo)))
                                [owner; name];
                          gauge (basic.diskUsage c)
                                (float64 (DiskUsage repo))
                                [owner; name];
                          gauge (basic.forks c)
                                (float64 (TotalCount (Forks repo)))
                                [owner; name];
                          gauge (basic.issues c)
                                (float64 (TotalCount (IssuesOpen repo)))
                                [owner; name; "open"];
                          gauge (basic.issues c)
                                (float64 (TotalCount (IssuesClosed repo)))
                                [owner; name; "closed"] ])
                     (Nodes (Repositories (basic.Organization q)))
       | inl e =>
           logged w'
           = logged w
             ++ [{| level := WarnLevel;
                    keyvals :=
                      [("msg",
                        "failed to execute organization query successfully");
                       ("err", e)] |}]
           /\ metricCh w' = metricCh w
       end.
Proof.
  rewrite basic_Collect_ok. eexists. split; [reflexivity|].
  cbn [remote metricCh descCh logged queried].
  repeat (split; [reflexivity|]).
  destruct (snd (remoteQuery (remote w) s)) as [e|q].
  - now rewrite app_nil_r.
  - now rewrite app_nil_r.
Qed.

Lemma filter_flat_map {A B : Type} (p : B -> bool) (f : A -> list B)
      (l : list A) :
  filter p (flat_map f l) = flat_map (fun x => filter p (f x)) l.
Proof.
  induction l as [|x l IH]; simpl; [reflexivity|].
  now rewrite filter_app, IH.
Qed.

(** X9. Given the same organization tree, the earlier collector emits
    exactly those samples of the later collector that belong to the
    families created, disk usage, forks and issues, in the same order and
    with the same descriptors, values and labels. *)
Theorem basic_Collect_is_filtered_Collect
        (Remote1 Remote2 : Type)
        (remoteQuery1 :
           Remote1 -> string -> Remote1 * (string + basic.organizationQuery))
        (remoteQuery2 :
           Remote2 -> string -> Remote2 * (string + organizationQuery))
        (s o : string) (w1 : World Remote1) (w2 : World Remote2)
        (q : organizationQuery) :
  snd (remoteQuery1 (remote w1) s) = inr (withoutRateLimit q) ->
  snd (remoteQuery2 (remote w2) o) = inr q ->
  exists (w1' : World Remote1) (w2' : World Remote2)
         (out : list prometheus.Metric),
    basic.Collect remoteQuery1 (basic.NewOrganizationCollector s) w1
    = Done tt w1'
    /\ Collect remoteQuery2 (NewOrganizationCollector [o]) w2 = Done tt w2'
    /\ metricCh w2' = metricCh w2 ++ out
    /\ metricCh w1'
       = metricCh w1
         ++ filter (inFamilies ["github_repo_created";
                                "github_repo_disk_usage_bytes";
                                "github_repo_forks"; "github_repo_issues"])
                   out.
Proof.
  intros H1 H2.
  rewrite basic_Collect_ok, H1.
  rewrite (Collect_ok remoteQuery2 (NewOrganizationCollector_wellFormed [o])).
  cbv zeta. change (organizations (NewOrganizationCollector [o])) with [o].
  cbn [observed]. destruct (remoteQuery2 (remote w2) o) as [r' a].
  cbn [snd] in H2. subst a.
  do 3 eexists. split; [reflexivity|]. split; [reflexivity|].
  cbn [metricCh]. split; [reflexivity|]. f_equal.
  unfold cycleMetrics. cbn [successes flat_map]. rewrite app_nil_r.
  rewrite filter_app. unfold orgMetrics. rewrite filter_flat_map.
  replace (filter _ (match exitOf _ _ with
                     | FellThrough rl => _
                     | Returned => []
                     end)) with (@nil prometheus.Metric)
    by (destruct (exitOf _ _); reflexivity).
  rewrite app_nil_r. reflexivity.
Qed.

(** X9, run: both collectors see the tree of "acme". *)
Lemma basic_Collect_is_filtered_Collect_witness :
  exists (w1' : World (list (string + basic.organizationQuery)))
         (w2' : World (list (string + organizationQuery)))
         (out : list prometheus.Metric),
    basic.Collect (fun r _ => (tl r, hd (inl "unexpected query") r))
                  (basic.NewOrganizationCollector "acme")
                  {| remote := [inr (withoutRateLimit acme)];
                     metricCh := []; descCh := []; logged := [];
                     queried := [] |}
    = Done tt w1'
    /\ Collect scriptedQuery (NewOrganizationCollector ["acme"])
               (world0 [inr acme]) = Done tt w2'
    /\ metricCh w2' = [] ++ out
    /\ metricCh w1'
       = []
         ++ filter (inFamilies ["github_repo_created";
                                "github_repo_disk_usage_bytes";
                                "github_repo_forks"; "github_repo_issues"])
                   out.
Proof.
  exact (@basic_Collect_is_filtered_Collect
           _ _ (fun r _ => (tl r, hd (inl "unexpected query") r))
           scriptedQuery "acme" "acme"
           {| remote := [inr (withoutRateLimit acme)];
              metricCh := []; descCh := []; logged := []; queried := [] |}
           (world0 [inr acme]) acme eq_refl eq_refl).
Defined.

(** X10. The earlier [Describe] sends four descriptors, the first four of
    the later collector, and touches nothing else; every sample the
    earlier [Collect] emits is a gauge of one of these four with as many
    label values as the descriptor has label names. *)
Theorem basic_Collect_within_Describe
        (Remote : Type)
        (remoteQuery :
           Remote -> string -> Remote * (string + basic.organizationQuery))
        (s : string) (w w0 : World Remote) :
  exists (out : list prometheus.Metric) (w' : World Remote),
    basic.Describe (basic.NewOrganizationCollector s) w0
    = Done tt {| remote := remote w0;
                 metricCh := metricCh w0;
                 descCh := descCh w0
                           ++ firstn 4 (descriptors
                                          (NewOrganizationCollector []));
                 logged := logged w0;
                 queried := queried w0 |}
    /\ basic.Collect remoteQuery (basic.NewOrganizationCollector s) w
       = Done tt w'
    /\ metricCh w' = metricCh w ++ out
    /\ Forall (fun m =>
                 In (prometheus.desc m)
                    (firstn 4 (descriptors (NewOrganizationCollector [])))
                 /\ prometheus.valType m = prometheus.GaugeValue
                 /\ List.length (prometheus.labelValues m)
                    = List.length (prometheus.variableLabels
                                     (prometheus.desc m)))
              out.
Proof.
  rewrite basic_Collect_ok. do 2 eexists.
  split; [|split; [reflexivity|split; [reflexivity|]]].
  - unfold basic.Describe.
    assert (Hsend : forall (d : prometheus.Desc) (x : World Remote),
               sendDesc d x = Done tt (described x [d])) by reflexivity.
    do 3 (erewrite bind_Done by apply Hsend).
    rewrite Hsend. unfold described.
    cbn [remote metricCh descCh logged queried].
    rewrite <- !app_assoc. reflexivity.
  - destruct (snd (remoteQuery (remote w) s)) as [e|q]; [constructor|].
    apply Forall_flat_map, Forall_forall. intros repo _.
    repeat (constructor;
            [split; [simpl; tauto | split; reflexivity]|]).
    constructor.
Qed.

(** *** The organization list of [main] *)

Lemma Split_nonempty (s : string) (sep : ascii) : strings.Split s sep <> [].
Proof.
  destruct s as [|c s]; simpl; [discriminate|].
  destruct (Ascii.eqb c sep); [discriminate|].
  destruct (strings.Split s sep); discriminate.
Qed.

Lemma Join_cons_cons (p p' : string) (ps : list string) (sep : string) :
  prometheus.Join (p :: p' :: ps) sep
  = (p ++ sep ++ prometheus.Join (p' :: ps) sep)%string.
Proof. reflexivity. Qed.

Lemma Join_String (c : ascii) (p : string) (ps : list string) (sep : string) :
  prometheus.Join (String c p :: ps) sep
  = String c (prometheus.Join (p :: ps) sep).
Proof. destruct ps; reflexivity. Qed.

(** X11. The list [main] makes of [ORGS] with [strings.Split(c.Orgs, ",")]
    is never empty: it has one entry more than [ORGS] has commas, no entry
    contains a comma, and joining the entries with commas gives [ORGS]
    back. An empty [ORGS] yields the one organization [""]. *)
Theorem Split_comma (s : string) :
  List.length (strings.Split s ","%char)
  = S (strings.Count s ","%char)
  /\ Forall (fun piece => strings.Contains piece ","%char = false)
            (strings.Split s ","%char)
  /\ prometheus.Join (strings.Split s ","%char) "," = s
  /\ strings.Split "" ","%char = [""].
Proof.
  split; [|split; [|split; [|reflexivity]]].
  - induction s as [|c s IH]; [reflexivity|]. simpl.
    destruct (Ascii.eqb c ","); simpl; [now rewrite IH|].
    pose proof (@Split_nonempty s ","%char) as Hne.
    destruct (strings.Split s ","); [congruence|]. simpl in *. lia.
  - induction s as [|c s IH]; [repeat constructor|]. simpl.
    destruct (Ascii.eqb c ",") eqn:Hc; [now constructor|].
    pose proof (@Split_nonempty s ","%char) as Hne.
    destruct (strings.Split s ","); [congruence|].
    inversion IH; subst. constructor; [|assumption].
    simpl. now rewrite Hc.
  - induction s as [|c s IH]; [reflexivity|]. simpl.
    pose proof (@Split_nonempty s ","%char) as Hne.
    destruct (Ascii.eqb c ",") eqn:Hc.
    + apply Ascii.eqb_eq in Hc. subst c.
      destruct (strings.Split s ",") as [|p ps]; [congruence|].
      rewrite Join_cons_cons, IH. reflexivity.
    + destruct (strings.Split s ",") as [|p ps]; [congruence|].
      rewrite Join_String, IH. reflexivity.
Qed.

Lemma Split_no_separator (p : string) (sep : ascii) :
  strings.Contains p sep = false -> strings.Split p sep = [p].
Proof.
  induction p as [|c p IH]; simpl; [reflexivity|].
  destruct (Ascii.eqb c sep); simpl; [discriminate|].
  intros H. now rewrite IH.
Qed.

Lemma Split_append (p t : string) (sep : ascii) :
  strings.Contains p sep = false ->
  strings.Split (p ++ String sep t)%string sep = p :: strings.Split t sep.
Proof.
  induction p as [|c p IH]; simpl.
  - intros _. now rewrite Ascii.eqb_refl.
  - destruct (Ascii.eqb c sep); simpl; [discriminate|].
    intros H. now rewrite IH.
Qed.

(** X12. Every non-empty list of names without commas can be configured:
    joined with commas into [ORGS], it is the list [main] hands to the
    collector. *)
Theorem Split_Join_comma (names : list string) :
  names <> [] ->
  Forall (fun name => strings.Contains name ","%char = false) names ->
  strings.Split (prometheus.Join names ",") ","%char = names.
Proof.
  intros Hne Hall. induction names as [|p ps IH]; [congruence|].
  inversion Hall as [|? ? Hp Hps]; subst.
  destruct ps as [|p' ps].
  - simpl. now apply Split_no_separator.
  - rewrite Join_cons_cons.
    change ("," ++ prometheus.Join (p' :: ps) ",")%string
      with (String ","%char (prometheus.Join (p' :: ps) ",")).
    rewrite Split_append by assumption.
    f_equal. apply IH; [discriminate | assumption].
Qed.

(** X12, run. *)
Lemma Split_Join_comma_witness :
  strings.Split (prometheus.Join ["acme"; "globex"; "initech"] ",") ","%char
  = ["acme"; "globex"; "initech"].
Proof.
  apply (@Split_Join_comma ["acme"; "globex"; "initech"]).
  - discriminate.
  - repeat constructor.
Defined.









